(** * go-http-ntlm: the NTLM handshake of [NtlmTransport.RoundTrip]

    A shallow embedding of [ntlmtransport.go] and the properties of its
    handshake orchestration.

    Go strings are byte strings: they are modelled by [string], whose
    characters are the 8-bit [ascii].  A [[]byte] is a [list byte].  The
    HTTP header map is a [gmap string (list string)].  Everything outside
    the package (the HTTP client and the network behind it, response
    bodies, URL parsing, the NTLM session engine) is an interface, the
    classes [OutsideTypes] and [Outside]; every property is proved for all
    their instances.

    The request that the caller passes by pointer is one object, kept in
    the state: [ntlmRoundTrip] reads it, writes its header and hands it to
    the client.  A run yields what the call returns (or that it panics),
    the state after it, and the sends, reads and closes it made, in
    order. *)

From Stdlib Require Import Strings.String Strings.Ascii Strings.Byte.
From Stdlib Require Import NArith.NArith ZArith.ZArith Lists.List Bool.Bool Lia.
From stdpp Require Import base option list gmap strings.
Import ListNotations.

Local Open Scope string_scope.
Local Open Scope list_scope.

(** ** Go's [strings] package, on byte strings *)

Module GoStrings.

(** [len(s)] *)
Definition len (s : string) : nat := String.length s.

(** [s[n:]]; Go panics when [n > len(s)], the one use in this package is
    guarded by [HasPrefix]. *)
Definition sliceFrom (n : nat) (s : string) : string :=
  substring n (len s - n) s.

(** [s[:n]] *)
Definition sliceTo (n : nat) (s : string) : string := substring 0 n s.

(** [strings.HasPrefix]:
    [len(s) >= len(prefix) && s[:len(prefix)] == prefix]. *)
Definition HasPrefix (s prefix : string) : bool :=
  (len prefix <=? len s)%nat && String.eqb (sliceTo (len prefix) s) prefix.

(** [unicode.White_Space], the table behind [unicode.IsSpace]: inclusive
    ranges of code points. *)
Definition White_Space : list (N * N) :=
  [ (0x0009, 0x000d); (0x0020, 0x0020); (0x0085, 0x0085); (0x00a0, 0x00a0);
    (0x1680, 0x1680); (0x2000, 0x200a); (0x2028, 0x2029); (0x202f, 0x202f);
    (0x205f, 0x205f); (0x3000, 0x3000) ]%N.

Definition rangeRunes (r : N * N) : list N :=
  map (fun k => fst r + N.of_nat k)%N (seq 0 (N.to_nat (snd r - fst r) + 1)).

Definition spaceRunes : list N := concat (map rangeRunes White_Space).

(** UTF-8 encoding of a code point below U+10000 (all of [spaceRunes]). *)
Definition utf8 (r : N) : list ascii :=
  map ascii_of_N
    (if r <? 0x80 then [r]
     else if r <? 0x800 then [0xC0 + r / 64; 0x80 + r mod 64]
     else [0xE0 + r / 4096; 0x80 + (r / 64) mod 64; 0x80 + r mod 64])%N.

(** The byte sequences that [utf8.DecodeRuneInString] decodes to a white
    space rune.  Go rejects over-long encodings, so each rune has one. *)
Definition spaceEncodings : list (list ascii) := map utf8 spaceRunes.

(** [dropPrefix p s] is the rest of [s] after [p] when [s] starts with [p]. *)
Fixpoint dropPrefix (p s : list ascii) : option (list ascii) :=
  match p, s with
  | [], _ => Some s
  | a :: p', b :: s' => if Ascii.eqb a b then dropPrefix p' s' else None
  | _ :: _, [] => None
  end.

(** One step of a trimming loop: drop one leading rune of the set. *)
Fixpoint stripOne (pats : list (list ascii)) (s : list ascii)
  : option (list ascii) :=
  match pats with
  | [] => None
  | p :: ps =>
      match dropPrefix p s with
      | Some r => Some r
      | None => stripOne ps s
      end
  end.

(** The loop; [fuel] bounds the number of runes, [length s] is enough. *)
Fixpoint stripAll (fuel : nat) (pats : list (list ascii)) (s : list ascii)
  : list ascii :=
  match fuel with
  | O => s
  | S f =>
      match stripOne pats s with
      | Some r => stripAll f pats r
      | None => s
      end
  end.

(** [strings.TrimLeftFunc(s, unicode.IsSpace)] on the bytes of [s]. *)
Definition trimLeft (s : list ascii) : list ascii :=
  stripAll (length s) spaceEncodings s.

(** [strings.TrimRightFunc(s, unicode.IsSpace)]: the same loop from the
    end.  [utf8.DecodeLastRuneInString] finds a white space rune exactly
    when the string ends with its encoding (the lead byte of an encoding
    is the only rune start among its bytes). *)
Definition trimRight (s : list ascii) : list ascii :=
  rev (stripAll (length s) (map (@rev ascii) spaceEncodings) (rev s)).

(** [strings.TrimSpace]: leading and trailing Unicode white space
    removed.  Go's ASCII fast path computes the same slice. *)
Definition TrimSpace (s : string) : string :=
  string_of_list_ascii (trimRight (trimLeft (list_ascii_of_string s))).

End GoStrings.

(** ** Base64 helpers of the package *)

Module Base64.

(** The alphabet of [base64.StdEncoding]. *)
Definition encodeStd : string :=
  "ABCDEFGHIJKLMNOPQRSTUVWXYZabcdefghijklmnopqrstuvwxyz0123456789+/".

Definition padChar : ascii := "="%char.

(** Character of a 6-bit value. *)
Definition enc (v : N) : ascii :=
  nth (N.to_nat v) (list_ascii_of_string encodeStd) padChar.

Fixpoint indexOf (c : ascii) (l : list ascii) (i : N) : option N :=
  match l with
  | [] => None
  | x :: l' => if Ascii.eqb x c then Some i else indexOf c l' (i + 1)%N
  end.

(** 6-bit value of a character of the alphabet. *)
Definition dec (c : ascii) : option N :=
  indexOf c (list_ascii_of_string encodeStd) 0%N.

Definition byteOfN (n : N) : byte :=
  match Byte.of_N (n mod 256) with
  | Some b => b
  | None => x00
  end.

(** Three bytes make four characters; one or two left-over bytes are
    padded with [=]. *)
Fixpoint encode (src : list byte) : list ascii :=
  match src with
  | [] => []
  | [a] =>
      let val := (Byte.to_N a * 65536)%N in
      [enc (val / 262144); enc ((val / 4096) mod 64); padChar; padChar]%N
  | [a; b] =>
      let val := (Byte.to_N a * 65536 + Byte.to_N b * 256)%N in
      [enc (val / 262144); enc ((val / 4096) mod 64);
       enc ((val / 64) mod 64); padChar]%N
  | a :: b :: c :: rest =>
      let val := (Byte.to_N a * 65536 + Byte.to_N b * 256 + Byte.to_N c)%N in
      [enc (val / 262144); enc ((val / 4096) mod 64);
       enc ((val / 64) mod 64); enc (val mod 64)]%N ++ encode rest
  end.

(** One group of four characters; padding is accepted in the last group
    only. *)
Definition quantum (c0 c1 c2 c3 : ascii) (last : bool) : option (list byte) :=
  match dec c0, dec c1 with
  | Some v0, Some v1 =>
      match dec c2, dec c3 with
      | Some v2, Some v3 =>
          let val := (v0 * 262144 + v1 * 4096 + v2 * 64 + v3)%N in
          Some [byteOfN (val / 65536); byteOfN (val / 256); byteOfN val]
      | Some v2, None =>
          if last && Ascii.eqb c3 padChar then
            let val := (v0 * 262144 + v1 * 4096 + v2 * 64)%N in
            Some [byteOfN (val / 65536); byteOfN (val / 256)]
          else None
      | None, _ =>
          if last && Ascii.eqb c2 padChar && Ascii.eqb c3 padChar then
            let val := (v0 * 262144 + v1 * 4096)%N in
            Some [byteOfN (val / 65536)]
          else None
      end
  | _, _ => None
  end.

Fixpoint decode (s : list ascii) : option (list byte) :=
  match s with
  | [] => Some []
  | c0 :: c1 :: c2 :: c3 :: rest =>
      match quantum c0 c1 c2 c3 (match rest with [] => true | _ => false end) with
      | Some bs =>
          match decode rest with
          | Some out => Some (bs ++ out)
          | None => None
          end
      | None => None
      end
  | _ => None
  end.

End Base64.

(** Modelled from the spec: [EncBase64] is not in [ntlmtransport.go]; the
    spec calls it the base64 encoding helper ("pure formatting",
    "base64 is lossless").  Standard base64 with padding. *)
Definition EncBase64 (b : list byte) : string :=
  string_of_list_ascii (Base64.encode b).


(** ** The parts of [net/textproto] and [net/http] the package calls *)

Module textproto.

(** Token characters of a header field name. *)
Definition validHeaderFieldByte (c : ascii) : bool :=
  let n := N_of_ascii c in
  ((48 <=? n) && (n <=? 57) || (65 <=? n) && (n <=? 90)
   || (97 <=? n) && (n <=? 122))%N
  || existsb (Ascii.eqb c) (list_ascii_of_string "!#$%&'*+-.^_`|~").

(** First letter and every letter after a dash in upper case, the others
    in lower case. *)
Fixpoint canon (upper : bool) (a : list ascii) : list ascii :=
  match a with
  | [] => []
  | c :: a' =>
      let n := N_of_ascii c in
      let c' :=
        if (upper && (97 <=? n) && (n <=? 122))%N then ascii_of_N (n - 32)
        else if (negb upper && (65 <=? n) && (n <=? 90))%N
             then ascii_of_N (n + 32)
             else c in
      c' :: canon (Ascii.eqb c' "-") a'
  end.

(** [textproto.CanonicalMIMEHeaderKey]: a key with a byte that is not a
    token character is returned unchanged. *)
Definition CanonicalMIMEHeaderKey (s : string) : string :=
  let a := list_ascii_of_string s in
  if forallb validHeaderFieldByte a then string_of_list_ascii (canon true a)
  else s.

End textproto.

(** [http.Header], a [map[string][]string]. *)
Abbreviation Header := (gmap string (list string)).

Module HeaderOps.

(** [h.Values(key)]: the values of the canonical key, none when absent. *)
Definition Values (h : Header) (key : string) : list string :=
  default [] (h !! textproto.CanonicalMIMEHeaderKey key).

(** [h.Add(key, value)] appends to the values of the canonical key. *)
Definition Add (h : Header) (key value : string) : Header :=
  let k := textproto.CanonicalMIMEHeaderKey key in
  <[k := default [] (h !! k) ++ [value]]> h.

(** [h.Set(key, value)] replaces the values of the canonical key. *)
Definition Set_ (h : Header) (key value : string) : Header :=
  <[textproto.CanonicalMIMEHeaderKey key := [value]]> h.

End HeaderOps.

(** [http.StatusUnauthorized] *)
Definition StatusUnauthorized : Z := 401.

(** Types of the values that the package receives from outside and only
    passes on. *)
Class OutsideTypes : Type := {
  World : Type;                     (* servers, connections, jar contents, engine state *)
  ExtError : Type;                  (* error values made outside the package *)
  url_URL : Type;                   (* [*url.URL], never nil in a [RoundTrip] argument *)
  io_Reader : Type;                 (* a request body *)
  io_ReadCloser : Type;             (* a response body *)
  http_RoundTripper : Type;
  http_CookieJar : Type;
  ntlm_ClientSession : Type;
  ntlm_ChallengeMessage : Type;
  ntlm_AuthenticateMessage : Type
}.

(** [ntlm.Version2], [ntlm.ConnectionlessMode] and their siblings. *)
Inductive ntlm_Version : Set := Version1 | Version2.
Inductive ntlm_Mode : Set := ConnectionOrientedMode | ConnectionlessMode.

Section DataModel.
Context `{OutsideTypes}.

(** A request body: [http.NoBody], a [strings.Reader] with bytes left to
    read, or another reader. *)
Inductive RequestBody : Type :=
| NoBody
| StringsReader (s : string)
| BodyReader (r : io_Reader).

(** The fields of [http.Request] that the package reads or writes. *)
Record Request : Type := mkRequest {
  Method : string;
  URL : url_URL;
  ReqHeader : Header;
  Body : RequestBody
}.

Record Response : Type := mkResponse {
  StatusCode : Z;
  RespHeader : Header;
  RespBody : io_ReadCloser
}.

(** [http.Client]; a nil [Transport] or [Jar] (here [ClientJar]) is [None]. *)
Record Client : Type := mkClient {
  Transport : option http_RoundTripper;
  ClientJar : option http_CookieJar
}.

(** [NtlmTransport]; the embedded [http.RoundTripper] is the field
    [RoundTripper]. *)
Record NtlmTransport : Type := mkNtlmTransport {
  Domain : string;
  User : string;
  Password : string;
  Workstation : string;
  RoundTripper : option http_RoundTripper;
  Jar : option http_CookieJar
}.

(** Error values.  [errEmptyNtlm] is the package variable; it is not
    exported.  [errorsNew msg] is a value of [errors.New(msg)] made at a
    return statement, [CorruptInputError] the error of the base64
    decoder, and [external e] an error made outside the package: by the
    client, a response body or the session engine.  The errors made
    outside neither wrap the package variable nor answer to it. *)
Inductive error : Type :=
| errEmptyNtlm
| errorsNew (msg : string)
| CorruptInputError
| external (e : ExtError).

(** [errors.Is(err, errEmptyNtlm)]: only the package variable is it. *)
Definition errorsIs_errEmptyNtlm (err : error) : bool :=
  match err with
  | errEmptyNtlm => true
  | _ => false
  end.

(** What [client.Do] returns: a response and no error, or an error,
    with which a response may come (a failed redirect check). *)
Inductive DoResult : Type :=
| DoOk (resp : Response)
| DoErr (resp : option Response) (err : ExtError).

(** The pair [(res *http.Response, err error)] of the package's
    functions; [None] is nil. *)
Definition GoResult : Type := option Response * option error.

Definition pairOfDo (d : DoResult) : GoResult :=
  match d with
  | DoOk resp => (Some resp, None)
  | DoErr resp err => (resp, Some (external err))
  end.

(** Which request object a send was given: the one [http.NewRequest]
    just made, or the caller's. *)
Inductive Sender : Set := Fresh | Caller.

(** What can be observed from outside during a call. *)
Inductive Event : Type :=
| EvDo (c : Client) (who : Sender) (r : Request)  (* [client.Do(r)], [r] as it is then *)
| EvCopyDiscard (b : io_ReadCloser)               (* [io.Copy(io.Discard, b)] *)
| EvClose (b : io_ReadCloser).                    (* [b.Close()] *)

(** The caller's request object and the world outside. *)
Record State : Type := mkState {
  world : World;
  request : Request
}.

End DataModel.

Arguments Request {_}.
Arguments Response {_}.
Arguments Client {_}.
Arguments NtlmTransport {_}.
Arguments error {_}.
Arguments DoResult {_}.
Arguments GoResult {_}.
Arguments Event {_}.
Arguments State {_}.
Arguments RequestBody {_}.

(** The functions outside the package.  Those that do input or output, or
    keep state, take the world and give it back. *)
Class Outside `{OutsideTypes} : Type := {
  (** the method [String] of [url.URL] *)
  url_String : url_URL -> string;
  (** the URL that [http.NewRequest] gives the new request, [None] when it
      returns an error *)
  url_Parse : string -> option url_URL;
  (** the method [Do] of [http.Client]; it is given the request as it is
      at the call, and what it does to the object is its own affair: the
      state keeps the request as the package left it *)
  client_Do : Client -> Request -> World -> DoResult * World;
  (** [io.Copy(io.Discard, body)], the error only *)
  io_Copy_Discard : io_ReadCloser -> World -> option ExtError * World;
  (** [body.Close()] *)
  body_Close : io_ReadCloser -> World -> option ExtError * World;
  ntlm_CreateClientSession :
    ntlm_Version -> ntlm_Mode -> World -> (ntlm_ClientSession + ExtError) * World;
  (** [session.SetUserInfo(user, password, domain, workstation)] *)
  session_SetUserInfo :
    ntlm_ClientSession -> string -> string -> string -> string -> World -> World;
  ntlm_ParseChallengeMessage :
    list byte -> World -> (ntlm_ChallengeMessage + ExtError) * World;
  session_ProcessChallengeMessage :
    ntlm_ClientSession -> ntlm_ChallengeMessage -> World -> option ExtError * World;
  session_GenerateAuthenticateMessage :
    ntlm_ClientSession -> World -> (ntlm_AuthenticateMessage + ExtError) * World;
  (** [authenticate.Bytes()] *)
  message_Bytes : ntlm_AuthenticateMessage -> list byte;
  (** Modelled from the spec: the package's [Negotiate()] is not in
      [ntlmtransport.go]; it yields the bytes of the Negotiate message. *)
  Negotiate : list byte
}.

(** ** The package *)

(** How a call ends: it returns, or the goroutine panics. *)
Inductive Outcome (A : Type) : Type :=
| Returned (a : A)
| Panicked.
Arguments Returned {A} a.
Arguments Panicked {A}.

Section Handshake.
Context `{Outside}.

(** Modelled from the spec: [DecBase64] is not in [ntlmtransport.go]; the
    spec calls it the base64 decoding helper, for which "malformed
    encoding is a hard error". *)
Definition DecBase64 (s : string) : list byte + error :=
  match Base64.decode (list_ascii_of_string s) with
  | Some b => inl b
  | None => inr CorruptInputError
  end.

(** *** Calls, state and events

    A computation reads and writes the caller's request object and the
    world, emits events, and returns or panics. *)

Definition M (A : Type) : Type := State -> Outcome A * State * list Event.

Definition ret {A} (a : A) : M A := fun s => (Returned a, s, []).

Definition panic {A} : M A := fun s => (Panicked, s, []).

Definition bind {A B} (m : M A) (k : A -> M B) : M B :=
  fun s =>
    match m s with
    | (Returned a, s1, ev1) =>
        match k a s1 with
        | (o, s2, ev2) => (o, s2, ev1 ++ ev2)
        end
    | (Panicked, s1, ev1) => (Panicked, s1, ev1)
    end.

Definition emit (e : Event) : M unit := fun s => (Returned tt, s, [e]).

Definition liftWorld {A} (f : World -> A * World) : M A :=
  fun s =>
    match f (world s) with
    | (a, w) => (Returned a, mkState w (request s), [])
    end.

(** Reading the caller's request object through the pointer [req]. *)
Definition callerRequest : M Request := fun s => (Returned (request s), s, []).

(** [req.Header.Set(key, value)] on the caller's request object. *)
Definition callerHeaderSet (key value : string) : M unit :=
  fun s =>
    let r := request s in
    (Returned tt,
     mkState (world s)
       (mkRequest (Method r) (URL r) (HeaderOps.Set_ (ReqHeader r) key value) (Body r)),
     []).

Definition externalOf {A} (r : A + ExtError) : A + error :=
  match r with
  | inl a => inl a
  | inr e => inr (external e)
  end.

Definition externalErr (r : option ExtError) : unit + error :=
  match r with
  | None => inl tt
  | Some e => inr (external e)
  end.

(** [x, err := m; if err != nil { return nil, err }; k x] *)
Definition orReturn {A} (m : M (A + error)) (k : A -> M GoResult) : M GoResult :=
  bind m (fun r =>
    match r with
    | inl a => k a
    | inr err => ret (None, Some err)
    end).

Definition fmapM {A B} (f : A -> B) (m : M A) : M B :=
  bind m (fun a => ret (f a)).

(** [client.Do(r)] *)
Definition clientDo (client : Client) (who : Sender) (r : Request) : M DoResult :=
  bind (emit (EvDo client who r)) (fun _ => liftWorld (client_Do client r)).

(** [io.Copy(io.Discard, body)] *)
Definition ioCopyDiscard (b : io_ReadCloser) : M (unit + error) :=
  bind (emit (EvCopyDiscard b)) (fun _ =>
    fmapM externalErr (liftWorld (io_Copy_Discard b))).

(** [body.Close()] *)
Definition bodyClose (b : io_ReadCloser) : M (unit + error) :=
  bind (emit (EvClose b)) (fun _ =>
    fmapM externalErr (liftWorld (body_Close b))).

(** [http.NewRequest(method, url, strings.NewReader(body))] for a valid
    method: the new request, nil ([None]) when the URL is refused.  A
    reader without bytes becomes [http.NoBody]. *)
Definition http_NewRequest (method url body : string) : option Request :=
  match url_Parse url with
  | Some u =>
      Some (mkRequest method u ∅
              (if String.eqb body "" then NoBody else StringsReader body))
  | None => None
  end.

(** [r.Header.Add(key, value)] through a pointer that may be nil. *)
Definition headerAdd (r : option Request) (key value : string) : M Request :=
  match r with
  | Some r =>
      ret (mkRequest (Method r) (URL r) (HeaderOps.Add (ReqHeader r) key value) (Body r))
  | None => panic
  end.

(** The loop over [authHeaders]: the values of [ntlmChallengeFound] and
    [ntlmChallengeString] after it. *)
Fixpoint scanAuthHeaders (authHeaders : list string)
    (ntlmChallengeFound : bool) (ntlmChallengeString : string) : bool * string :=
  match authHeaders with
  | [] => (ntlmChallengeFound, ntlmChallengeString)
  | h :: rest =>
      if GoStrings.HasPrefix h "NTLM"
      then (true, GoStrings.TrimSpace (GoStrings.sliceFrom 4 h))   (* break *)
      else scanAuthHeaders rest ntlmChallengeFound ntlmChallengeString
  end.

Notation "'let*' x ':=' m 'in' k" := (bind m (fun x => k))
  (at level 10, x name, m at level 99, k at level 200).
Notation "'run' m ';;' k" := (bind m (fun _ => k))
  (at level 10, m at level 99, k at level 200).
Notation "'try*' x ':=' m 'in' k" := (orReturn m (fun x => k))
  (at level 10, x name, m at level 99, k at level 200).
Notation "'try' m ';;' k" := (orReturn m (fun _ => k))
  (at level 10, m at level 99, k at level 200).

Definition ntlmRoundTrip (t : NtlmTransport) (client : Client) : M GoResult :=
  (* first send NTLM Negotiate header *)
  let* req := callerRequest in
  let r := http_NewRequest "GET" (url_String (URL req)) "" in   (* r, _ := *)
  let* r := headerAdd r "Authorization" ("NTLM " +:+ EncBase64 Negotiate) in
  let* d := clientDo client Fresh r in
  match d with
  | DoErr _ err => ret (None, Some (external err))
  | DoOk resp =>
      if (StatusCode resp =? StatusUnauthorized)%Z then
        (* read the body and close it, to reuse the connection *)
        try ioCopyDiscard (RespBody resp) ;;
        try bodyClose (RespBody resp) ;;
        (* retrieve Www-Authenticate header from response *)
        let authHeaders := HeaderOps.Values (RespHeader resp) "WWW-Authenticate" in
        if (length authHeaders =? 0)%nat then
          ret (None, Some (errorsNew "WWW-Authenticate header missing"))
        else
          (* pick the one that starts with NTLM *)
          match scanAuthHeaders authHeaders false "" with
          | (ntlmChallengeFound, ntlmChallengeString) =>
              if String.eqb ntlmChallengeString "" then
                if ntlmChallengeFound then ret (None, Some errEmptyNtlm)
                else ret (None, Some (errorsNew "wrong WWW-Authenticate header"))
              else
                try* challengeBytes := ret (DecBase64 ntlmChallengeString) in
                try* session :=
                  fmapM externalOf
                    (liftWorld (ntlm_CreateClientSession Version2 ConnectionlessMode)) in
                run liftWorld (fun w =>
                      (tt, session_SetUserInfo session
                             (User t) (Password t) (Domain t) (Workstation t) w)) ;;
                (* parse NTLM challenge *)
                try* challenge :=
                  fmapM externalOf
                    (liftWorld (ntlm_ParseChallengeMessage challengeBytes)) in
                try fmapM externalErr
                      (liftWorld (session_ProcessChallengeMessage session challenge)) ;;
                (* authenticate user *)
                try* authenticate :=
                  fmapM externalOf
                    (liftWorld (session_GenerateAuthenticateMessage session)) in
                (* set NTLM Authorization header *)
                run callerHeaderSet "Authorization"
                      ("NTLM " +:+ EncBase64 (message_Bytes authenticate)) ;;
                let* req := callerRequest in
                let* d := clientDo client Caller req in
                ret (pairOfDo d)
          end
      else ret (Some resp, None)
  end.

(** [RoundTrip] sends the request and tries to perform NTLM
    authentication. *)
Definition RoundTrip (t : NtlmTransport) : M GoResult :=
  let client := mkClient None None in                  (* http.Client{} *)
  let client :=
    match RoundTripper t with
    | Some rt => mkClient (Some rt) (ClientJar client)
    | None => client
    end in
  let client :=
    match Jar t with
    | Some jar => mkClient (Transport client) (Some jar)
    | None => client
    end in
  let* res := ntlmRoundTrip t client in
  (* retry once in case of an empty ntlm challenge *)
  match res with
  | (_, Some err) =>
      if errorsIs_errEmptyNtlm err then ntlmRoundTrip t client else ret res
  | (_, None) => ret res
  end.

End Handshake.

(** ** A scripted world

    An instance of the interface, for running the package on concrete
    inputs: a server that answers the successive sends from a script, a
    response body that can be made to fail, and an engine whose four calls
    can each be made to fail. *)

Module Demo.

Inductive Reply : Type :=
| Answer (status : Z) (wwwAuthenticate : list string)
| NoAnswer (err : string)
| RedirectLoop (status : Z) (err : string).

Record DemoWorld : Type := mkWorld {
  script : list Reply;
  readFails : bool;
  closeFails : bool;
  createFails : bool;
  parseFails : bool;
  processFails : bool;
  generateFails : bool;
  user : string
}.

#[export] Instance types : OutsideTypes := {|
  World := DemoWorld;
  ExtError := string;
  url_URL := string;
  io_Reader := unit;
  io_ReadCloser := nat;
  http_RoundTripper := nat;
  http_CookieJar := nat;
  ntlm_ClientSession := unit;
  ntlm_ChallengeMessage := list byte;
  ntlm_AuthenticateMessage := list byte
|}.

Definition headerOf (wwwAuthenticate : list string) : Header :=
  match wwwAuthenticate with
  | [] => ∅
  | _ => {[ "Www-Authenticate" := wwwAuthenticate ]}
  end.

Definition setScript (w : DemoWorld) (l : list Reply) : DemoWorld :=
  mkWorld l (readFails w) (closeFails w) (createFails w) (parseFails w)
    (processFails w) (generateFails w) (user w).

Definition setUser (w : DemoWorld) (u : string) : DemoWorld :=
  mkWorld (script w) (readFails w) (closeFails w) (createFails w) (parseFails w)
    (processFails w) (generateFails w) u.

Definition demoDo (c : Client) (r : Request) (w : DemoWorld) : DoResult * DemoWorld :=
  match script w with
  | [] => (DoErr None "EOF", w)
  | Answer status auth :: rest =>
      (DoOk (mkResponse status (headerOf auth) (length rest)), setScript w rest)
  | NoAnswer err :: rest => (DoErr None err, setScript w rest)
  | RedirectLoop status err :: rest =>
      (DoErr (Some (mkResponse status ∅ (length rest))) err, setScript w rest)
  end.

Definition failing {A} (flag : bool) (err : string) (a : A) (w : DemoWorld)
  : (A + string) * DemoWorld :=
  if flag then (inr err, w) else (inl a, w).

Definition failingErr (flag : bool) (err : string) (w : DemoWorld)
  : option string * DemoWorld :=
  if flag then (Some err, w) else (None, w).

#[export] Instance outside : Outside := {|
  url_String := fun u => u;
  url_Parse := fun s => if String.eqb s "" then None else Some s;
  client_Do := demoDo;
  io_Copy_Discard := fun _ w => failingErr (readFails w) "unexpected EOF" w;
  body_Close := fun _ w => failingErr (closeFails w) "close failed" w;
  ntlm_CreateClientSession := fun _ _ w => failing (createFails w) "no session" tt w;
  session_SetUserInfo := fun _ u _ _ _ w => setUser w u;
  ntlm_ParseChallengeMessage := fun b w => failing (parseFails w) "bad challenge" b w;
  session_ProcessChallengeMessage := fun _ _ w =>
    failingErr (processFails w) "challenge refused" w;
  session_GenerateAuthenticateMessage := fun _ w =>
    failing (generateFails w) "no authenticate message"
      (list_byte_of_string ("AUTH:" +:+ user w)) w;
  message_Bytes := fun m => m;
  Negotiate := list_byte_of_string "NTLMSSP-negotiate"
|}.

Definition world0 (l : list Reply) : DemoWorld :=
  mkWorld l false false false false false false "".

(** The caller's request: a POST with a body and a header. *)
Definition post (url : string) : Request :=
  mkRequest "POST" url {[ "Content-Type" := ["text/plain"] ]} (BodyReader tt).

Definition transport : NtlmTransport :=
  mkNtlmTransport "DOMAIN" "alice" "secret" "WS01" (Some 7) (Some 9).

Definition start (l : list Reply) : State := mkState (world0 l) (post "http://host/path").

End Demo.

(** ** Vocabulary of the properties *)

Module Spec.

(** A string of white space runes only (the empty string included). *)
Inductive WhitespaceOnly : list ascii -> Prop :=
| ws_nil : WhitespaceOnly []
| ws_rune r rest :
    In r GoStrings.spaceRunes -> WhitespaceOnly rest ->
    WhitespaceOnly (GoStrings.utf8 r ++ rest).

(** A concatenation of members of [pats]. *)
Inductive Concat (pats : list (list ascii)) : list ascii -> Prop :=
| concat_nil : Concat pats []
| concat_cons p rest : In p pats -> Concat pats rest -> Concat pats (p ++ rest).

Definition nonEmpty (pats : list (list ascii)) : Prop :=
  forall p, In p pats -> p <> [].

(** No member is a proper prefix of another: the first rune of a string
    is determined. *)
Definition prefixFree (pats : list (list ascii)) : Prop :=
  forall p q r r', In p pats -> In q pats -> p ++ r = q ++ r' -> p = q.

Definition nonEmptyb (pats : list (list ascii)) : bool :=
  forallb (fun p => match p with [] => false | _ => true end) pats.

Definition sameBytes (p q : list ascii) : bool :=
  (length p =? length q)%nat && forallb (fun ab => Ascii.eqb (fst ab) (snd ab)) (combine p q).

Definition prefixFreeb (pats : list (list ascii)) : bool :=
  forallb (fun p =>
    forallb (fun q =>
      match GoStrings.dropPrefix p q with
      | Some _ => sameBytes p q
      | None => true
      end) pats) pats.

(** The scheme token of a challenge, in the words of the spec: the
    characters of a header value before its first space or tab. *)
Fixpoint schemeToken (h : string) : string :=
  match h with
  | EmptyString => EmptyString
  | String c h' =>
      if Ascii.eqb c " " || Ascii.eqb c (ascii_of_nat 9) then EmptyString
      else String c (schemeToken h')
  end.

(** Challenge selection in the words of the spec: the first value whose
    scheme token is exactly [NTLM]; the payload is that value without
    the token, trimmed. *)
Definition selectChallenge (authHeaders : list string) : option string :=
  match List.find (fun h => String.eqb (schemeToken h) "NTLM") authHeaders with
  | Some h => Some (GoStrings.TrimSpace (GoStrings.sliceFrom 4 h))
  | None => None
  end.

End Spec.

Section Vocabulary.
Context `{Outside}.

(** The client that [RoundTrip] builds from the transport. *)
Definition clientOf (t : NtlmTransport) : Client :=
  mkClient (RoundTripper t) (Jar t).

(** The probe: a GET to [u] without body whose only header is the
    Negotiate message. *)
Definition probeRequest (u : url_URL) : Request :=
  mkRequest "GET" u {[ "Authorization" := ["NTLM " +:+ EncBase64 Negotiate] ]} NoBody.

(** A request with its Authorization header set to the one value [v]. *)
Definition withAuthorization (v : string) (r : Request) : Request :=
  mkRequest (Method r) (URL r) (<["Authorization" := [v]]> (ReqHeader r)) (Body r).

Definition isSend (who : Sender) (e : Event) : bool :=
  match e, who with
  | EvDo _ Fresh _, Fresh => true
  | EvDo _ Caller _, Caller => true
  | _, _ => false
  end.

(** How many times a probe ([Fresh]) or the caller's request ([Caller])
    was sent. *)
Definition sends (who : Sender) (evs : list Event) : nat :=
  length (List.filter (isSend who) evs).

(** The client of a send, none for the other events. *)
Definition clientOfEvent (e : Event) : option Client :=
  match e with
  | EvDo c _ _ => Some c
  | _ => None
  end.

(** The first value that starts with [NTLM]. *)
Definition firstNTLM (authHeaders : list string) : option string :=
  List.find (fun h => GoStrings.HasPrefix h "NTLM") authHeaders.

(** The calls to the session engine, in the order of [ntlmRoundTrip]:
    the Authenticate message, or the error of the first call that
    fails. *)
Definition engineAuthenticate (t : NtlmTransport) (challengeBytes : list byte)
    (w : World) : (ntlm_AuthenticateMessage + ExtError) * World :=
  match ntlm_CreateClientSession Version2 ConnectionlessMode w with
  | (inr e, w1) => (inr e, w1)
  | (inl session, w1) =>
      let w2 := session_SetUserInfo session
                  (User t) (Password t) (Domain t) (Workstation t) w1 in
      match ntlm_ParseChallengeMessage challengeBytes w2 with
      | (inr e, w3) => (inr e, w3)
      | (inl challenge, w3) =>
          match session_ProcessChallengeMessage session challenge w3 with
          | (Some e, w4) => (inr e, w4)
          | (None, w4) => session_GenerateAuthenticateMessage session w4
          end
      end
  end.

(** The probe exchange up to the header scan: the probe is answered by
    [resp] with status 401, and its body is read and closed without
    error, which leaves the world [w]. *)
Definition challenged (t : NtlmTransport) (c : Client) (s : State)
    (u : url_URL) (resp : Response) (w : World) : Prop :=
  url_Parse (url_String (URL (request s))) = Some u /\
  exists w1 w2,
    client_Do c (probeRequest u) (world s) = (DoOk resp, w1) /\
    StatusCode resp = StatusUnauthorized /\
    io_Copy_Discard (RespBody resp) w1 = (None, w2) /\
    body_Close (RespBody resp) w2 = (None, w).

(** The events of a probe exchange with a 401 answer. *)
Definition probeEvents (c : Client) (u : url_URL) (resp : Response) : list Event :=
  [EvDo c Fresh (probeRequest u); EvCopyDiscard (RespBody resp); EvClose (RespBody resp)].

(** The ways one attempt can go, one per return statement of
    [ntlmRoundTrip] (and one for the nil request): what the outside
    answered, and what the attempt yields. *)
Inductive Attempt (t : NtlmTransport) (c : Client) (s : State)
  : Outcome GoResult * State * list Event -> Prop :=
| attempt_unresolvable :
    url_Parse (url_String (URL (request s))) = None ->
    Attempt t c s (Panicked, s, [])
| attempt_probe_error u resp err w1 :
    url_Parse (url_String (URL (request s))) = Some u ->
    client_Do c (probeRequest u) (world s) = (DoErr resp err, w1) ->
    Attempt t c s
      (Returned (None, Some (external err)), mkState w1 (request s),
       [EvDo c Fresh (probeRequest u)])
| attempt_not_unauthorized u resp w1 :
    url_Parse (url_String (URL (request s))) = Some u ->
    client_Do c (probeRequest u) (world s) = (DoOk resp, w1) ->
    StatusCode resp <> StatusUnauthorized ->
    Attempt t c s
      (Returned (Some resp, None), mkState w1 (request s),
       [EvDo c Fresh (probeRequest u)])
| attempt_read_error u resp w1 err w2 :
    url_Parse (url_String (URL (request s))) = Some u ->
    client_Do c (probeRequest u) (world s) = (DoOk resp, w1) ->
    StatusCode resp = StatusUnauthorized ->
    io_Copy_Discard (RespBody resp) w1 = (Some err, w2) ->
    Attempt t c s
      (Returned (None, Some (external err)), mkState w2 (request s),
       [EvDo c Fresh (probeRequest u); EvCopyDiscard (RespBody resp)])
| attempt_close_error u resp w1 w2 err w3 :
    url_Parse (url_String (URL (request s))) = Some u ->
    client_Do c (probeRequest u) (world s) = (DoOk resp, w1) ->
    StatusCode resp = StatusUnauthorized ->
    io_Copy_Discard (RespBody resp) w1 = (None, w2) ->
    body_Close (RespBody resp) w2 = (Some err, w3) ->
    Attempt t c s
      (Returned (None, Some (external err)), mkState w3 (request s),
       probeEvents c u resp)
| attempt_header_missing u resp w :
    challenged t c s u resp w ->
    HeaderOps.Values (RespHeader resp) "WWW-Authenticate" = [] ->
    Attempt t c s
      (Returned (None, Some (errorsNew "WWW-Authenticate header missing")),
       mkState w (request s), probeEvents c u resp)
| attempt_wrong_header u resp w :
    challenged t c s u resp w ->
    HeaderOps.Values (RespHeader resp) "WWW-Authenticate" <> [] ->
    firstNTLM (HeaderOps.Values (RespHeader resp) "WWW-Authenticate") = None ->
    Attempt t c s
      (Returned (None, Some (errorsNew "wrong WWW-Authenticate header")),
       mkState w (request s), probeEvents c u resp)
| attempt_empty_challenge u resp w h :
    challenged t c s u resp w ->
    firstNTLM (HeaderOps.Values (RespHeader resp) "WWW-Authenticate") = Some h ->
    GoStrings.TrimSpace (GoStrings.sliceFrom 4 h) = "" ->
    Attempt t c s
      (Returned (None, Some errEmptyNtlm), mkState w (request s),
       probeEvents c u resp)
| attempt_decode_error u resp w h err :
    challenged t c s u resp w ->
    firstNTLM (HeaderOps.Values (RespHeader resp) "WWW-Authenticate") = Some h ->
    GoStrings.TrimSpace (GoStrings.sliceFrom 4 h) <> "" ->
    DecBase64 (GoStrings.TrimSpace (GoStrings.sliceFrom 4 h)) = inr err ->
    Attempt t c s
      (Returned (None, Some err), mkState w (request s), probeEvents c u resp)
| attempt_engine_error u resp w h challengeBytes err w' :
    challenged t c s u resp w ->
    firstNTLM (HeaderOps.Values (RespHeader resp) "WWW-Authenticate") = Some h ->
    GoStrings.TrimSpace (GoStrings.sliceFrom 4 h) <> "" ->
    DecBase64 (GoStrings.TrimSpace (GoStrings.sliceFrom 4 h)) = inl challengeBytes ->
    engineAuthenticate t challengeBytes w = (inr err, w') ->
    Attempt t c s
      (Returned (None, Some (external err)), mkState w' (request s),
       probeEvents c u resp)
| attempt_final u resp w h challengeBytes authenticate w' d w'' :
    challenged t c s u resp w ->
    firstNTLM (HeaderOps.Values (RespHeader resp) "WWW-Authenticate") = Some h ->
    GoStrings.TrimSpace (GoStrings.sliceFrom 4 h) <> "" ->
    DecBase64 (GoStrings.TrimSpace (GoStrings.sliceFrom 4 h)) = inl challengeBytes ->
    engineAuthenticate t challengeBytes w = (inl authenticate, w') ->
    client_Do c
      (withAuthorization ("NTLM " +:+ EncBase64 (message_Bytes authenticate))
         (request s)) w' = (d, w'') ->
    Attempt t c s
      (Returned (pairOfDo d),
       mkState w''
         (withAuthorization ("NTLM " +:+ EncBase64 (message_Bytes authenticate))
            (request s)),
       probeEvents c u resp ++
       [EvDo c Caller
          (withAuthorization ("NTLM " +:+ EncBase64 (message_Bytes authenticate))
             (request s))]).

End Vocabulary.

(** ** The order of the calls *)

Section TraceVocabulary.
Context `{Outside}.

Definition isRead (e : Event) : bool :=
  match e with
  | EvCopyDiscard _ => true
  | _ => false
  end.

Definition isClose (e : Event) : bool :=
  match e with
  | EvClose _ => true
  | _ => false
  end.

(** How many response bodies were read, and how many closed. *)
Definition reads (evs : list Event) : nat := length (List.filter isRead evs).

Definition closes (evs : list Event) : nat := length (List.filter isClose evs).

(** Every call in its place, [prev] being the call before: a body is read
    right after the send of a probe, a body is closed right after it was
    read, and the caller's request is sent right after a close and is the
    last call. *)
Fixpoint inOrder (prev : option Event) (evs : list Event) : Prop :=
  match evs with
  | [] => True
  | e :: rest =>
      match e with
      | EvDo _ Fresh _ => True
      | EvCopyDiscard _ => exists c r, prev = Some (EvDo c Fresh r)
      | EvClose b => prev = Some (EvCopyDiscard b)
      | EvDo _ Caller _ => (exists b, prev = Some (EvClose b)) /\ rest = []
      end /\ inOrder (Some e) rest
  end.

End TraceVocabulary.

(** * Properties *)

(** ** Strings *)

Section StringFacts.

Import GoStrings.

Lemma HasPrefix_app (p rest : string) : HasPrefix (p +:+ rest) p = true.
Proof.
  unfold HasPrefix, sliceTo, len.
  induction p as [|a p IH]; simpl.
  - destruct rest; reflexivity.
  - apply andb_true_iff in IH as [Hl He].
    apply andb_true_iff; split.
    + exact Hl.
    + rewrite Ascii.eqb_refl. exact He.
Qed.

Lemma HasPrefix_inv (p s : string) :
  HasPrefix s p = true -> exists rest, s = p +:+ rest.
Proof.
  unfold HasPrefix, sliceTo, len.
  revert s; induction p as [|a p IH]; intros s Hp.
  - exists s. reflexivity.
  - destruct s as [|b s]; simpl in Hp; [discriminate|].
    apply andb_true_iff in Hp as [Hl He].
    destruct (Ascii.eqb_spec b a) as [->|]; [|discriminate].
    destruct (IH s) as [rest ->].
    + apply andb_true_iff; split; assumption.
    + exists rest. reflexivity.
Qed.

Lemma sliceFrom_app (p rest : string) : sliceFrom (len p) (p +:+ rest) = rest.
Proof.
  unfold sliceFrom, len.
  induction p as [|a p IH]; simpl.
  - rewrite Nat.sub_0_r. clear. induction rest as [|c r IH]; simpl; [reflexivity|].
    f_equal. destruct r; simpl in *; [reflexivity|]. exact IH.
  - exact IH.
Qed.

End StringFacts.

(** ** Trimming *)

Section Trimming.

Import GoStrings Spec.

Lemma dropPrefix_Some p s r : dropPrefix p s = Some r <-> s = p ++ r.
Proof.
  revert s; induction p as [|a p IH]; intros s; simpl.
  - split; congruence.
  - destruct s as [|b s]; [split; discriminate|].
    destruct (Ascii.eqb_spec a b) as [->|Hne].
    + rewrite IH. split; congruence.
    + split; [discriminate|]. intros E; injection E; congruence.
Qed.

Lemma stripOne_Some pats s r :
  stripOne pats s = Some r -> exists p, In p pats /\ s = p ++ r.
Proof.
  induction pats as [|q pats IH]; simpl; [discriminate|].
  destruct (dropPrefix q s) as [r'|] eqn:E.
  - intros [= <-]. apply dropPrefix_Some in E. exists q; auto.
  - intros Hs. destruct (IH Hs) as (p & Hin & ->). exists p; auto.
Qed.

Lemma stripOne_None pats s p r :
  stripOne pats s = None -> In p pats -> s <> p ++ r.
Proof.
  induction pats as [|q pats IH]; simpl; [tauto|].
  destruct (dropPrefix q s) as [r'|] eqn:E; [discriminate|].
  intros Hs [->|Hin] Heq.
  - apply dropPrefix_Some in Heq. congruence.
  - exact (IH Hs Hin Heq).
Qed.

Lemma stripAll_fixed pats n s :
  nonEmpty pats -> length s <= n -> stripOne pats (stripAll n pats s) = None.
Proof.
  intros Hne. revert s; induction n as [|n IH]; intros s Hlen; simpl.
  - destruct s; [|simpl in Hlen; lia].
    destruct (stripOne pats []) as [r|] eqn:E; [|reflexivity].
    apply stripOne_Some in E as (p & Hin & Hp).
    symmetry in Hp. apply app_eq_nil in Hp as [-> _]. destruct (Hne _ Hin eq_refl).
  - destruct (stripOne pats s) as [r|] eqn:E; [|exact E].
    apply IH. apply stripOne_Some in E as (p & Hin & ->).
    rewrite length_app in Hlen. specialize (Hne _ Hin).
    destruct p; [congruence|]. simpl in Hlen. lia.
Qed.

Lemma stripAll_nil_Concat pats n s :
  nonEmpty pats -> length s <= n -> stripAll n pats s = [] -> Concat pats s.
Proof.
  intros Hne. revert s; induction n as [|n IH]; intros s Hlen; simpl.
  - intros ->. constructor.
  - destruct (stripOne pats s) as [r|] eqn:E.
    + intros Hr. apply stripOne_Some in E as (p & Hin & ->).
      constructor; [exact Hin|]. apply IH; [|exact Hr].
      rewrite length_app in Hlen. specialize (Hne _ Hin).
      destruct p; [congruence|]. simpl in Hlen. lia.
    + intros ->. constructor.
Qed.

Lemma Concat_stripAll_nil pats n s :
  nonEmpty pats -> prefixFree pats -> length s <= n ->
  Concat pats s -> stripAll n pats s = [].
Proof.
  intros Hne Hpf Hlen Hc. revert n Hlen.
  induction Hc as [|p rest Hin Hc IH]; intros n Hlen.
  - destruct n; simpl; [reflexivity|].
    destruct (stripOne pats []) as [r|] eqn:E; [|reflexivity].
    apply stripOne_Some in E as (q & Hq & Hp).
    symmetry in Hp. apply app_eq_nil in Hp as [-> _]. destruct (Hne _ Hq eq_refl).
  - assert (Hp := Hne _ Hin).
    rewrite length_app in Hlen.
    destruct n as [|n]; [destruct p; [congruence|simpl in Hlen; lia]|].
    simpl. destruct (stripOne pats (p ++ rest)) as [r|] eqn:E.
    + apply stripOne_Some in E as (q & Hq & Heq).
      assert (p = q) by (eapply Hpf; eauto). subst q.
      apply app_inv_head in Heq. subst r.
      apply IH. destruct p; [congruence|simpl in Hlen; lia].
    + exfalso. eapply stripOne_None; eauto.
Qed.

Lemma Concat_app pats a b : Concat pats a -> Concat pats b -> Concat pats (a ++ b).
Proof.
  induction 1 as [|p rest Hin Hc IH]; intros Hb; simpl; [exact Hb|].
  rewrite <- app_assoc. constructor; auto.
Qed.

Lemma Concat_rev pats s : Concat pats s -> Concat (map (@rev ascii) pats) (rev s).
Proof.
  induction 1 as [|p rest Hin Hc IH]; simpl; [constructor|].
  rewrite rev_app_distr. apply Concat_app; [exact IH|].
  rewrite <- (app_nil_r (rev p)). constructor; [|constructor].
  apply in_map. exact Hin.
Qed.

Lemma Concat_unrev pats s : Concat (map (@rev ascii) pats) (rev s) -> Concat pats s.
Proof.
  intros Hc. apply Concat_rev in Hc.
  rewrite rev_involutive, map_map in Hc.
  rewrite (map_ext _ (fun x => x)) in Hc by apply rev_involutive.
  rewrite map_id in Hc. exact Hc.
Qed.

Lemma Concat_WhitespaceOnly s : Concat spaceEncodings s <-> Spec.WhitespaceOnly s.
Proof.
  split; induction 1 as [|x rest Hin Hc IH]; try constructor.
  - unfold spaceEncodings in Hin. apply in_map_iff in Hin as (r & <- & Hr).
    constructor; assumption.
  - unfold spaceEncodings. apply in_map. exact Hin.
  - exact IH.
Qed.

End Trimming.

Section TrimSpaceFacts.

Import GoStrings Spec.

Lemma nonEmptyb_sound pats : nonEmptyb pats = true -> nonEmpty pats.
Proof.
  unfold nonEmptyb, nonEmpty. rewrite forallb_forall.
  intros Hb p Hin ->. specialize (Hb _ Hin). discriminate.
Qed.

Lemma sameBytes_eq p q : sameBytes p q = true -> p = q.
Proof.
  unfold sameBytes. revert q; induction p as [|a p IH]; intros [|b q]; simpl;
    try reflexivity; try discriminate.
  intros Hb. apply andb_true_iff in Hb as [Hl Hb].
  apply andb_true_iff in Hb as [Hab Hb].
  destruct (Ascii.eqb_spec a b) as [->|]; [|discriminate].
  f_equal. apply IH. apply andb_true_iff; split; assumption.
Qed.

Lemma prefixFreeb_sound pats : prefixFreeb pats = true -> prefixFree pats.
Proof.
  unfold prefixFreeb, prefixFree. rewrite forallb_forall.
  intros Hb p q r r' Hp Hq Heq.
  assert (Hpq : forall a b l, In a pats -> In b pats -> b = a ++ l -> a = b).
  { intros a b l Ha Hb' E. specialize (Hb _ Ha). rewrite forallb_forall in Hb.
    specialize (Hb _ Hb'). apply dropPrefix_Some in E. rewrite E in Hb.
    apply sameBytes_eq. exact Hb. }
  apply app_eq_app in Heq as [l [[E _]|[E _]]].
  - symmetry. eapply Hpq; eauto.
  - eapply Hpq; eauto.
Qed.

Lemma spaceEncodings_nonEmpty : nonEmpty spaceEncodings.
Proof. apply nonEmptyb_sound. vm_compute. reflexivity. Qed.

Lemma spaceEncodings_rev_nonEmpty : nonEmpty (map (@rev ascii) spaceEncodings).
Proof. apply nonEmptyb_sound. vm_compute. reflexivity. Qed.

Lemma spaceEncodings_prefixFree : prefixFree spaceEncodings.
Proof. apply prefixFreeb_sound. vm_compute. reflexivity. Qed.

Lemma trimLeft_nil_iff s : trimLeft s = [] <-> WhitespaceOnly s.
Proof.
  rewrite <- Concat_WhitespaceOnly. unfold trimLeft. split.
  - apply stripAll_nil_Concat; [apply spaceEncodings_nonEmpty|lia].
  - apply Concat_stripAll_nil;
      [apply spaceEncodings_nonEmpty|apply spaceEncodings_prefixFree|lia].
Qed.

Lemma trimRight_trimLeft_nil s : trimRight (trimLeft s) = [] -> trimLeft s = [].
Proof.
  unfold trimRight. intros Hr.
  assert (Hfix : stripOne spaceEncodings (trimLeft s) = None).
  { apply stripAll_fixed; [apply spaceEncodings_nonEmpty|lia]. }
  remember (trimLeft s) as t eqn:Et. clear Et.
  apply (f_equal (@rev ascii)) in Hr. rewrite rev_involutive in Hr. change (rev []) with (@nil ascii) in Hr.
  apply stripAll_nil_Concat in Hr;
    [|apply spaceEncodings_rev_nonEmpty|rewrite length_rev; lia].
  apply Concat_unrev in Hr.
  destruct Hr as [|p rest Hin _]; [reflexivity|].
  exfalso. eapply stripOne_None; eauto.
Qed.

(** [TrimSpace] leaves nothing exactly of the strings of white space. *)
Lemma TrimSpace_empty_iff s :
  TrimSpace s = "" <-> WhitespaceOnly (list_ascii_of_string s).
Proof.
  unfold TrimSpace. rewrite <- trimLeft_nil_iff. split.
  - intros Hs. apply trimRight_trimLeft_nil.
    destruct (trimRight _); [reflexivity|discriminate].
  - intros ->. reflexivity.
Qed.

Lemma eqb_empty_TrimSpace s :
  String.eqb (TrimSpace s) "" = true <-> WhitespaceOnly (list_ascii_of_string s).
Proof. rewrite String.eqb_eq. apply TrimSpace_empty_iff. Qed.

End TrimSpaceFacts.

(** ** Headers *)

Section HeaderFacts.

Lemma canonical_Authorization :
  textproto.CanonicalMIMEHeaderKey "Authorization" = "Authorization".
Proof. vm_compute. reflexivity. Qed.

Lemma canonical_WWW_Authenticate :
  textproto.CanonicalMIMEHeaderKey "WWW-Authenticate" = "Www-Authenticate".
Proof. vm_compute. reflexivity. Qed.

Lemma Add_empty_Authorization (v : string) :
  HeaderOps.Add ∅ "Authorization" v = {[ "Authorization" := [v] ]}.
Proof.
  unfold HeaderOps.Add. rewrite canonical_Authorization, lookup_empty.
  simpl. apply insert_empty.
Qed.

Lemma Set_Authorization (h : Header) (v : string) :
  HeaderOps.Set_ h "Authorization" v = <["Authorization" := [v]]> h.
Proof. unfold HeaderOps.Set_. rewrite canonical_Authorization. reflexivity. Qed.

Lemma Values_Authorization_set (h : Header) (v : string) :
  HeaderOps.Values (<["Authorization" := [v]]> h) "Authorization" = [v].
Proof.
  unfold HeaderOps.Values. rewrite canonical_Authorization, lookup_insert_eq.
  reflexivity.
Qed.

End HeaderFacts.

(** ** The header scan *)

Section ScanFacts.
Context `{Outside}.

Import GoStrings.

Lemma scanAuthHeaders_firstNTLM (hs : list string) (found : bool) (chal : string) :
  scanAuthHeaders hs found chal =
    match firstNTLM hs with
    | Some h => (true, TrimSpace (sliceFrom 4 h))
    | None => (found, chal)
    end.
Proof.
  unfold firstNTLM. induction hs as [|h hs IH]; simpl; [reflexivity|].
  destruct (HasPrefix h "NTLM"); [reflexivity|exact IH].
Qed.

Lemma firstNTLM_first (pre post : list string) (h : string) :
  Forall (fun x => HasPrefix x "NTLM" = false) pre ->
  HasPrefix h "NTLM" = true ->
  firstNTLM (pre ++ h :: post) = Some h.
Proof.
  unfold firstNTLM. intros Hpre Hh.
  induction Hpre as [|x pre Hx _ IH]; simpl.
  - rewrite Hh. reflexivity.
  - rewrite Hx. exact IH.
Qed.

Lemma firstNTLM_Some (hs : list string) (h : string) :
  firstNTLM hs = Some h ->
  exists pre post,
    hs = pre ++ h :: post /\
    Forall (fun x => HasPrefix x "NTLM" = false) pre /\
    HasPrefix h "NTLM" = true.
Proof.
  unfold firstNTLM. induction hs as [|x hs IH]; simpl; [discriminate|].
  destruct (HasPrefix x "NTLM") eqn:Hx.
  - intros [= ->]. exists [], hs. auto.
  - intros Hf. destruct (IH Hf) as (pre & post & -> & Hpre & Hh).
    exists (x :: pre), post. auto.
Qed.

Lemma firstNTLM_None (hs : list string) :
  firstNTLM hs = None <-> Forall (fun x => HasPrefix x "NTLM" = false) hs.
Proof.
  unfold firstNTLM. induction hs as [|x hs IH]; simpl.
  - split; auto.
  - destruct (HasPrefix x "NTLM") eqn:Hx.
    + split; [discriminate|]. intros Hf. inversion Hf; congruence.
    + rewrite IH. split; [auto|]. intros Hf. inversion Hf; assumption.
Qed.

End ScanFacts.

(** ** One handshake attempt, call by call *)

Section Execution.
Context `{Outside}.

Import GoStrings.

Arguments EncBase64 : simpl never.
Arguments DecBase64 : simpl never.
Arguments TrimSpace : simpl never.
Arguments sliceFrom : simpl never.
Arguments scanAuthHeaders : simpl never.
Arguments HeaderOps.Values : simpl never.
Arguments HeaderOps.Add : simpl never.
Arguments HeaderOps.Set_ : simpl never.
Arguments String.eqb : simpl never.
Arguments Z.eqb : simpl never.
Arguments firstNTLM : simpl never.

Lemma clientOf_RoundTrip (t : NtlmTransport) (s : State) :
  RoundTrip t s =
    bind (ntlmRoundTrip t (clientOf t)) (fun res =>
      match res with
      | (_, Some err) =>
          if errorsIs_errEmptyNtlm err then ntlmRoundTrip t (clientOf t) else ret res
      | (_, None) => ret res
      end) s.
Proof.
  unfold RoundTrip, clientOf.
  destruct (RoundTripper t), (Jar t); reflexivity.
Qed.

(** The attempt up to the answer to the probe. *)
Lemma ntlmRoundTrip_unresolvable t c s :
  url_Parse (url_String (URL (request s))) = None ->
  ntlmRoundTrip t c s = (Panicked, s, []).
Proof.
  intros Hu. unfold ntlmRoundTrip, bind, callerRequest, http_NewRequest.
  rewrite Hu. reflexivity.
Qed.

Lemma ntlmRoundTrip_probe_error t c s u resp err w1 :
  url_Parse (url_String (URL (request s))) = Some u ->
  client_Do c (probeRequest u) (world s) = (DoErr resp err, w1) ->
  ntlmRoundTrip t c s =
    (Returned (None, Some (external err)), mkState w1 (request s),
     [EvDo c Fresh (probeRequest u)]).
Proof.
  intros Hu Hdo.
  unfold ntlmRoundTrip, bind, callerRequest, http_NewRequest, headerAdd, clientDo,
    emit, liftWorld, ret, bind.
  rewrite Hu. simpl. rewrite Add_empty_Authorization.
  fold (probeRequest u). rewrite Hdo. reflexivity.
Qed.

Lemma ntlmRoundTrip_not_unauthorized t c s u resp w1 :
  url_Parse (url_String (URL (request s))) = Some u ->
  client_Do c (probeRequest u) (world s) = (DoOk resp, w1) ->
  StatusCode resp <> StatusUnauthorized ->
  ntlmRoundTrip t c s =
    (Returned (Some resp, None), mkState w1 (request s),
     [EvDo c Fresh (probeRequest u)]).
Proof.
  intros Hu Hdo Hst.
  unfold ntlmRoundTrip, bind, callerRequest, http_NewRequest, headerAdd, clientDo,
    emit, liftWorld, ret, bind.
  rewrite Hu. simpl. rewrite Add_empty_Authorization.
  fold (probeRequest u). rewrite Hdo.
  apply Z.eqb_neq in Hst. rewrite Hst. reflexivity.
Qed.

Lemma ntlmRoundTrip_read_error t c s u resp w1 err w2 :
  url_Parse (url_String (URL (request s))) = Some u ->
  client_Do c (probeRequest u) (world s) = (DoOk resp, w1) ->
  StatusCode resp = StatusUnauthorized ->
  io_Copy_Discard (RespBody resp) w1 = (Some err, w2) ->
  ntlmRoundTrip t c s =
    (Returned (None, Some (external err)), mkState w2 (request s),
     [EvDo c Fresh (probeRequest u); EvCopyDiscard (RespBody resp)]).
Proof.
  intros Hu Hdo Hst Hrd.
  unfold ntlmRoundTrip, orReturn, ioCopyDiscard, fmapM, bind, callerRequest,
    http_NewRequest, headerAdd, clientDo, emit, liftWorld, ret, bind.
  rewrite Hu. simpl. rewrite Add_empty_Authorization.
  fold (probeRequest u). rewrite Hdo.
  apply Z.eqb_eq in Hst. rewrite Hst. simpl. rewrite Hrd. reflexivity.
Qed.

Lemma ntlmRoundTrip_close_error t c s u resp w1 w2 err w3 :
  url_Parse (url_String (URL (request s))) = Some u ->
  client_Do c (probeRequest u) (world s) = (DoOk resp, w1) ->
  StatusCode resp = StatusUnauthorized ->
  io_Copy_Discard (RespBody resp) w1 = (None, w2) ->
  body_Close (RespBody resp) w2 = (Some err, w3) ->
  ntlmRoundTrip t c s =
    (Returned (None, Some (external err)), mkState w3 (request s),
     probeEvents c u resp).
Proof.
  intros Hu Hdo Hst Hrd Hcl.
  unfold ntlmRoundTrip, orReturn, ioCopyDiscard, bodyClose, fmapM, bind,
    callerRequest, http_NewRequest, headerAdd, clientDo, emit, liftWorld, ret, bind.
  rewrite Hu. simpl. rewrite Add_empty_Authorization.
  fold (probeRequest u). rewrite Hdo.
  apply Z.eqb_eq in Hst. rewrite Hst. simpl. rewrite Hrd. simpl. rewrite Hcl.
  reflexivity.
Qed.

(** The attempt from the header scan on. *)
Lemma ntlmRoundTrip_challenged t c s u resp w :
  challenged t c s u resp w ->
  ntlmRoundTrip t c s =
    match HeaderOps.Values (RespHeader resp) "WWW-Authenticate" with
    | [] =>
        (Returned (None, Some (errorsNew "WWW-Authenticate header missing")),
         mkState w (request s), probeEvents c u resp)
    | authHeaders =>
        match firstNTLM authHeaders with
        | None =>
            (Returned (None, Some (errorsNew "wrong WWW-Authenticate header")),
             mkState w (request s), probeEvents c u resp)
        | Some h =>
            let payload := TrimSpace (sliceFrom 4 h) in
            if String.eqb payload "" then
              (Returned (None, Some errEmptyNtlm),
               mkState w (request s), probeEvents c u resp)
            else
              match DecBase64 payload with
              | inr err =>
                  (Returned (None, Some err),
                   mkState w (request s), probeEvents c u resp)
              | inl challengeBytes =>
                  match engineAuthenticate t challengeBytes w with
                  | (inr err, w') =>
                      (Returned (None, Some (external err)),
                       mkState w' (request s), probeEvents c u resp)
                  | (inl authenticate, w') =>
                      let final :=
                        withAuthorization
                          ("NTLM " +:+ EncBase64 (message_Bytes authenticate))
                          (request s) in
                      match client_Do c final w' with
                      | (d, w'') =>
                          (Returned (pairOfDo d), mkState w'' final,
                           probeEvents c u resp ++ [EvDo c Caller final])
                      end
                  end
              end
        end
    end.
Proof.
  intros (Hu & w1 & w2 & Hdo & Hst & Hrd & Hcl).
  unfold ntlmRoundTrip, orReturn, ioCopyDiscard, bodyClose, fmapM, bind,
    callerRequest, http_NewRequest, headerAdd, clientDo, emit, liftWorld, ret, bind.
  rewrite Hu. simpl. rewrite Add_empty_Authorization.
  fold (probeRequest u). rewrite Hdo.
  apply Z.eqb_eq in Hst. rewrite Hst. simpl. rewrite Hrd. simpl. rewrite Hcl. simpl.
  destruct (HeaderOps.Values (RespHeader resp) "WWW-Authenticate") as [|h0 hs] eqn:Hv;
    [reflexivity|].
  change (length (h0 :: hs) =? 0)%nat with false. cbv iota.
  rewrite scanAuthHeaders_firstNTLM.
  destruct (firstNTLM (h0 :: hs)) as [h|]; [|reflexivity].
  destruct (String.eqb (TrimSpace (sliceFrom 4 h)) "") eqn:He; [reflexivity|].
  simpl. destruct (DecBase64 (TrimSpace (sliceFrom 4 h))) as [bytes|err]; [|reflexivity].
  unfold engineAuthenticate. simpl.
  destruct (ntlm_CreateClientSession Version2 ConnectionlessMode w) as [[session|err] w4];
    [|reflexivity].
  simpl.
  destruct (ntlm_ParseChallengeMessage bytes _) as [[challenge|err] w6]; [|reflexivity].
  simpl.
  destruct (session_ProcessChallengeMessage session challenge w6) as [[err|] w7];
    [reflexivity|].
  simpl.
  destruct (session_GenerateAuthenticateMessage session w7) as [[authenticate|err] w8];
    [|reflexivity].
  simpl. unfold callerHeaderSet. simpl. rewrite Set_Authorization.
  fold (withAuthorization ("NTLM " +:+ EncBase64 (message_Bytes authenticate)) (request s)).
  destruct (client_Do c _ w8) as [d w9]. reflexivity.
Qed.

End Execution.

Section Attempts.
Context `{Outside}.

Import GoStrings.

(** Every attempt goes one of the ways of [Attempt]. *)
Lemma ntlmRoundTrip_Attempt t c s : Attempt t c s (ntlmRoundTrip t c s).
Proof.
  destruct (url_Parse (url_String (URL (request s)))) as [u|] eqn:Hu.
  2:{ rewrite ntlmRoundTrip_unresolvable by exact Hu. constructor. exact Hu. }
  destruct (client_Do c (probeRequest u) (world s)) as [[resp|resp err] w1] eqn:Hdo.
  2:{ erewrite ntlmRoundTrip_probe_error by eassumption.
      econstructor; eassumption. }
  destruct (Z.eq_dec (StatusCode resp) StatusUnauthorized) as [Hst|Hst].
  2:{ erewrite ntlmRoundTrip_not_unauthorized by eassumption.
      econstructor; eassumption. }
  destruct (io_Copy_Discard (RespBody resp) w1) as [[err|] w2] eqn:Hrd.
  { erewrite ntlmRoundTrip_read_error by eassumption.
    econstructor; eassumption. }
  destruct (body_Close (RespBody resp) w2) as [[err|] w3] eqn:Hcl.
  { erewrite ntlmRoundTrip_close_error by eassumption.
    econstructor; eassumption. }
  assert (Hch : challenged t c s u resp w3).
  { split; [exact Hu|]. exists w1, w2. auto. }
  rewrite (ntlmRoundTrip_challenged _ _ _ _ _ _ Hch).
  destruct (HeaderOps.Values (RespHeader resp) "WWW-Authenticate") as [|h0 hs] eqn:Hv.
  { eapply attempt_header_missing; eassumption. }
  rewrite <- Hv.
  destruct (firstNTLM (HeaderOps.Values (RespHeader resp) "WWW-Authenticate"))
    as [h|] eqn:Hf.
  2:{ eapply attempt_wrong_header; try eassumption. congruence. }
  cbv zeta.
  destruct (String.eqb (TrimSpace (sliceFrom 4 h)) "") eqn:He.
  { apply String.eqb_eq in He. eapply attempt_empty_challenge; eassumption. }
  apply String.eqb_neq in He.
  destruct (DecBase64 (TrimSpace (sliceFrom 4 h))) as [bytes|err] eqn:Hd.
  2:{ eapply attempt_decode_error; eassumption. }
  destruct (engineAuthenticate t bytes w3) as [[authenticate|err] w'] eqn:Hen.
  2:{ eapply attempt_engine_error; eassumption. }
  destruct (client_Do c _ w') as [d w''] eqn:Hfin.
  eapply attempt_final; eassumption.
Qed.

End Attempts.

(** ** Base64 is lossless *)

Section Base64Facts.

Import Base64.

Ltac nlia := zify; Z.to_euclidean_division_equations; lia.

Ltac bytewise :=
  repeat match goal with
         | |- Some _ = Some _ => f_equal
         | |- _ :: _ = _ :: _ => f_equal
         end.

Lemma dec_enc (v : N) : (v < 64)%N -> dec (enc v) = Some v.
Proof.
  intros Hv.
  assert (Hin : In v (map N.of_nat (seq 0 64))).
  { apply in_map_iff. exists (N.to_nat v). split; [apply N2Nat.id|].
    apply in_seq. lia. }
  simpl in Hin.
  repeat (destruct Hin as [<-|Hin]; [vm_compute; reflexivity|]).
  destruct Hin.
Qed.

Lemma dec_padChar : dec padChar = None.
Proof. vm_compute. reflexivity. Qed.

Lemma byteOfN_to_N (x : byte) (n : N) :
  (n mod 256 = Byte.to_N x)%N -> byteOfN n = x.
Proof. unfold byteOfN. intros ->. rewrite Byte.of_to_N. reflexivity. Qed.

Lemma quantum_three (a b c : byte) (last : bool) :
  let val := (Byte.to_N a * 65536 + Byte.to_N b * 256 + Byte.to_N c)%N in
  quantum (enc (val / 262144)) (enc ((val / 4096) mod 64))
          (enc ((val / 64) mod 64)) (enc (val mod 64)) last
  = Some [a; b; c].
Proof.
  intros val.
  pose proof (Byte.to_N_bounded a) as Ha.
  pose proof (Byte.to_N_bounded b) as Hb.
  pose proof (Byte.to_N_bounded c) as Hc.
  unfold quantum.
  rewrite !dec_enc by (subst val; nlia).
  bytewise; apply byteOfN_to_N; subst val; nlia.
Qed.

Lemma quantum_two (a b : byte) :
  let val := (Byte.to_N a * 65536 + Byte.to_N b * 256)%N in
  quantum (enc (val / 262144)) (enc ((val / 4096) mod 64))
          (enc ((val / 64) mod 64)) padChar true
  = Some [a; b].
Proof.
  intros val.
  pose proof (Byte.to_N_bounded a) as Ha.
  pose proof (Byte.to_N_bounded b) as Hb.
  unfold quantum.
  rewrite !dec_enc by (subst val; nlia).
  rewrite dec_padChar. simpl.
  bytewise; apply byteOfN_to_N; subst val; nlia.
Qed.

Lemma quantum_one (a : byte) :
  let val := (Byte.to_N a * 65536)%N in
  quantum (enc (val / 262144)) (enc ((val / 4096) mod 64)) padChar padChar true
  = Some [a].
Proof.
  intros val.
  pose proof (Byte.to_N_bounded a) as Ha.
  unfold quantum.
  rewrite !dec_enc by (subst val; nlia).
  rewrite dec_padChar. simpl.
  bytewise; apply byteOfN_to_N; subst val; nlia.
Qed.

Lemma decode_encode_bounded (n : nat) (src : list byte) :
  length src <= n -> decode (encode src) = Some src.
Proof.
  revert src; induction n as [|n IH]; intros src Hlen.
  - destruct src; [reflexivity|simpl in Hlen; lia].
  - destruct src as [|a [|b [|c rest]]].
    + reflexivity.
    + cbn [encode decode]. rewrite quantum_one. reflexivity.
    + cbn [encode decode]. rewrite quantum_two. reflexivity.
    + cbn [encode app decode]. rewrite quantum_three.
      rewrite IH by (simpl in Hlen; lia). reflexivity.
Qed.

Lemma decode_encode (src : list byte) : decode (encode src) = Some src.
Proof. apply (decode_encode_bounded (length src)). lia. Qed.

End Base64Facts.

Section Base64RoundTrip.
Context `{Outside}.

Lemma DecBase64_EncBase64 (b : list byte) : DecBase64 (EncBase64 b) = inl b.
Proof.
  unfold DecBase64, EncBase64.
  rewrite list_ascii_of_string_of_list_ascii, decode_encode. reflexivity.
Qed.

Lemma DecBase64_error (payload : string) (err : error) :
  DecBase64 payload = inr err -> err = CorruptInputError.
Proof.
  unfold DecBase64. destruct (Base64.decode _); [discriminate|]. congruence.
Qed.

End Base64RoundTrip.

(** ** What every attempt keeps *)

Section AttemptFacts.
Context `{Outside}.

Import GoStrings.

Lemma sends_app who (a b : list Event) : sends who (a ++ b) = sends who a + sends who b.
Proof. unfold sends. rewrite List.filter_app, length_app. reflexivity. Qed.

Lemma sends_probeEvents c u resp :
  sends Fresh (probeEvents c u resp) = 1 /\ sends Caller (probeEvents c u resp) = 0.
Proof. split; reflexivity. Qed.

Ltac attempt_cases Ha := inversion Ha; subst; clear Ha.

Lemma Attempt_panic t c s s' evs :
  Attempt t c s (Panicked, s', evs) ->
  url_Parse (url_String (URL (request s))) = None /\ s' = s /\ evs = [].
Proof. intros Ha. attempt_cases Ha. auto. Qed.

Lemma Attempt_probe_first t c s res s' evs :
  Attempt t c s (Returned res, s', evs) ->
  exists u evs',
    url_Parse (url_String (URL (request s))) = Some u /\
    evs = EvDo c Fresh (probeRequest u) :: evs' /\
    sends Fresh evs' = 0.
Proof.
  intros Ha. attempt_cases Ha;
    try match goal with Hc : challenged _ _ _ _ _ _ |- _ => destruct Hc as [Hu _] end;
    eexists _, _; (split; [eassumption|]); split; reflexivity.
Qed.

Lemma Attempt_clients t c s o s' evs :
  Attempt t c s (o, s', evs) ->
  forall e c', In e evs -> clientOfEvent e = Some c' -> c' = c.
Proof.
  intros Ha e c' Hin Hc. attempt_cases Ha; simpl in Hin;
    repeat (destruct Hin as [<-|Hin]; [simpl in Hc; congruence|]);
    destruct Hin.
Qed.

(** The caller's request is left as it was and not sent, or a challenge
    was decoded and accepted by the engine, the request was given its
    Authorization header and then sent, as the last thing. *)
Lemma Attempt_request t c s o s' evs :
  Attempt t c s (o, s', evs) ->
  (request s' = request s /\ sends Caller evs = 0) \/
  (exists u resp w h challengeBytes authenticate w' d,
      challenged t c s u resp w /\
      firstNTLM (HeaderOps.Values (RespHeader resp) "WWW-Authenticate") = Some h /\
      DecBase64 (TrimSpace (sliceFrom 4 h)) = inl challengeBytes /\
      engineAuthenticate t challengeBytes w = (inl authenticate, w') /\
      request s' =
        withAuthorization ("NTLM " +:+ EncBase64 (message_Bytes authenticate))
          (request s) /\
      evs = probeEvents c u resp ++ [EvDo c Caller (request s')] /\
      client_Do c (request s') w' = (d, world s') /\
      o = Returned (pairOfDo d)).
Proof.
  intros Ha. attempt_cases Ha; try (left; split; reflexivity).
  right.
  match goal with
  | Hc : challenged _ _ _ ?u ?resp ?w,
    Hf : firstNTLM _ = Some ?h,
    Hb : DecBase64 _ = inl ?b,
    Hd : client_Do _ (withAuthorization (_ +:+ EncBase64 (message_Bytes ?a)) _) ?w' = (?d, _)
    |- _ => exists u, resp, w, h, b, a, w', d
  end.
  simpl. repeat (split; [first [eassumption|reflexivity]|]). reflexivity.
Qed.

Lemma Attempt_error_nil t c s resp err s' evs :
  Attempt t c s (Returned (resp, Some err), s', evs) ->
  sends Caller evs = 0 -> resp = None.
Proof.
  intros Ha Hs. attempt_cases Ha; try reflexivity.
  unfold sends in Hs. simpl in Hs. discriminate.
Qed.

Lemma Attempt_empty t c s resp s' evs :
  Attempt t c s (Returned (resp, Some errEmptyNtlm), s', evs) ->
  exists u presp w h,
    challenged t c s u presp w /\
    firstNTLM (HeaderOps.Values (RespHeader presp) "WWW-Authenticate") = Some h /\
    TrimSpace (sliceFrom 4 h) = "" /\
    resp = None /\ s' = mkState w (request s) /\ evs = probeEvents c u presp.
Proof.
  intros Ha. attempt_cases Ha.
  - eexists _, _, _, _.
    split; [eassumption|]. split; [eassumption|]. split; [assumption|]. auto.
  - match goal with Hd : DecBase64 _ = inr _ |- _ =>
      apply DecBase64_error in Hd; discriminate Hd end.
  - match goal with Hp : pairOfDo ?d = _ |- _ => destruct d; discriminate Hp end.
Qed.

Lemma RoundTrip_retry t s resp s1 ev1 :
  ntlmRoundTrip t (clientOf t) s = (Returned (resp, Some errEmptyNtlm), s1, ev1) ->
  RoundTrip t s =
    match ntlmRoundTrip t (clientOf t) s1 with
    | (o2, s2, ev2) => (o2, s2, ev1 ++ ev2)
    end.
Proof.
  intros Hfirst. rewrite clientOf_RoundTrip. unfold bind. rewrite Hfirst.
  reflexivity.
Qed.

Lemma RoundTrip_no_retry t s o1 s1 ev1 :
  ntlmRoundTrip t (clientOf t) s = (o1, s1, ev1) ->
  (forall resp, o1 <> Returned (resp, Some errEmptyNtlm)) ->
  RoundTrip t s = (o1, s1, ev1).
Proof.
  intros Hfirst Hne. rewrite clientOf_RoundTrip. unfold bind. rewrite Hfirst.
  destruct o1 as [[resp [err|]]|]; try (unfold ret; rewrite app_nil_r; reflexivity).
  - destruct err; try (unfold ret; simpl; rewrite app_nil_r; reflexivity).
    destruct (Hne resp eq_refl).
  - reflexivity.
Qed.

End AttemptFacts.

(** ** The claims *)

Section Claims.
Context `{Outside}.

Import GoStrings.

Lemma Attempt_sends_Fresh t c s o s' evs :
  Attempt t c s (o, s', evs) ->
  sends Fresh evs <= 1 /\ (o <> Panicked -> sends Fresh evs = 1).
Proof.
  intros Ha. destruct o as [res|].
  - apply Attempt_probe_first in Ha as (u & evs' & _ & -> & Hs).
    change (sends Fresh (EvDo c Fresh (probeRequest u) :: evs'))
      with (S (sends Fresh evs')).
    rewrite Hs. split; [lia|reflexivity].
  - apply Attempt_panic in Ha as (_ & _ & ->). split; [unfold sends; simpl; lia|congruence].
Qed.

Lemma second_attempt_sends_probe t c s s1 :
  request s1 = request s ->
  url_Parse (url_String (URL (request s))) <> None ->
  sends Fresh (snd (ntlmRoundTrip t c s1)) = 1.
Proof.
  intros Hreq Hu.
  pose proof (ntlmRoundTrip_Attempt t c s1) as Ha.
  destruct (ntlmRoundTrip t c s1) as [[o2 s2] ev2]. simpl.
  apply (Attempt_sends_Fresh _ _ _ _ _ _ Ha).
  intros ->. apply Attempt_panic in Ha as (Hn & _). rewrite Hreq in Hn. auto.
Qed.

(** C1 — When the first call of [ntlmRoundTrip] fails with the
    empty-challenge error, [RoundTrip] runs the whole handshake once
    more, with the same client and the same, unmodified request, and
    returns what this second attempt yields, whatever it is; the two
    attempts send one probe each, so there are two probes and never a
    third.  In every other case, any other error included, what the
    first attempt yields is returned as it is, without a retry. *)
Theorem C1_retry_once_on_empty_challenge (t : NtlmTransport) (s : State) :
  match ntlmRoundTrip t (clientOf t) s with
  | (Returned (_, Some errEmptyNtlm), s1, ev1) =>
      request s1 = request s /\
      RoundTrip t s =
        match ntlmRoundTrip t (clientOf t) s1 with
        | (o2, s2, ev2) => (o2, s2, ev1 ++ ev2)
        end /\
      sends Fresh ev1 = 1 /\
      sends Fresh (snd (ntlmRoundTrip t (clientOf t) s1)) = 1 /\
      sends Fresh (snd (RoundTrip t s)) = 2
  | first => RoundTrip t s = first
  end /\
  sends Fresh (snd (RoundTrip t s)) <= 2.
Proof.
  pose proof (ntlmRoundTrip_Attempt t (clientOf t) s) as Ha.
  destruct (ntlmRoundTrip t (clientOf t) s) as [[o1 s1] ev1] eqn:Hfirst.
  assert (Hone := Attempt_sends_Fresh _ _ _ _ _ _ Ha).
  assert (Hno : (forall resp, o1 <> Returned (resp, Some errEmptyNtlm)) ->
                RoundTrip t s = (o1, s1, ev1) /\
                sends Fresh (snd (RoundTrip t s)) <= 2).
  { intros Hne. rewrite (RoundTrip_no_retry _ _ _ _ _ Hfirst Hne).
    split; [reflexivity|]. simpl. lia. }
  destruct o1 as [[resp [err|]]|]; try (apply Hno; congruence).
  destruct err; try (apply Hno; congruence).
  clear Hno.
  destruct (Attempt_empty _ _ _ _ _ _ Ha) as (u & presp & w & h & Hch & _ & _ & _ & -> & ->).
  assert (Hsecond : sends Fresh (snd (ntlmRoundTrip t (clientOf t)
                                        (mkState w (request s)))) = 1).
  { apply (second_attempt_sends_probe t _ s); [reflexivity|].
    destruct Hch as [Hu _]. congruence. }
  rewrite (RoundTrip_retry _ _ _ _ _ Hfirst).
  destruct (ntlmRoundTrip t (clientOf t) (mkState w (request s))) as [[o2 s2] ev2].
  unfold sends in *. simpl in *.
  repeat split; try reflexivity; lia.
Qed.

(** [RoundTrip] is one attempt, or two when the first ends with the
    empty-challenge error. *)
Lemma RoundTrip_attempts t s :
  exists o1 s1 ev1,
    ntlmRoundTrip t (clientOf t) s = (o1, s1, ev1) /\
    Attempt t (clientOf t) s (o1, s1, ev1) /\
    ((RoundTrip t s = (o1, s1, ev1) /\
      forall resp, o1 <> Returned (resp, Some errEmptyNtlm)) \/
     (exists resp o2 s2 ev2,
         o1 = Returned (resp, Some errEmptyNtlm) /\
         request s1 = request s /\ sends Caller ev1 = 0 /\
         Attempt t (clientOf t) s1 (o2, s2, ev2) /\
         RoundTrip t s = (o2, s2, ev1 ++ ev2))).
Proof.
  pose proof (ntlmRoundTrip_Attempt t (clientOf t) s) as Ha.
  destruct (ntlmRoundTrip t (clientOf t) s) as [[o1 s1] ev1] eqn:Hfirst.
  exists o1, s1, ev1. split; [reflexivity|]. split; [exact Ha|].
  assert (Hno : (forall resp, o1 <> Returned (resp, Some errEmptyNtlm)) ->
                RoundTrip t s = (o1, s1, ev1) /\
                forall resp, o1 <> Returned (resp, Some errEmptyNtlm)).
  { intros Hne. split; [|exact Hne]. apply RoundTrip_no_retry; assumption. }
  destruct o1 as [[resp [err|]]|]; try (left; apply Hno; congruence).
  destruct err; try (left; apply Hno; congruence).
  right.
  destruct (Attempt_empty _ _ _ _ _ _ Ha)
    as (u & presp & w & h & Hch & _ & _ & _ & -> & ->).
  pose proof (ntlmRoundTrip_Attempt t (clientOf t) (mkState w (request s))) as Ha2.
  rewrite (RoundTrip_retry _ _ _ _ _ Hfirst).
  destruct (ntlmRoundTrip t (clientOf t) (mkState w (request s))) as [[o2 s2] ev2].
  exists resp, o2, s2, ev2. repeat split; try reflexivity. exact Ha2.
Qed.

(** C5 — When the answer to the probe has a status other than 401,
    [RoundTrip] returns this response as it is, with a nil error; the
    probe is the only request sent, and the caller's request, left as it
    was, is never sent. *)
Theorem C5_other_status_is_returned
    (t : NtlmTransport) (s : State) (u : url_URL) (resp : Response) (w1 : World) :
  url_Parse (url_String (URL (request s))) = Some u ->
  client_Do (clientOf t) (probeRequest u) (world s) = (DoOk resp, w1) ->
  StatusCode resp <> StatusUnauthorized ->
  RoundTrip t s =
    (Returned (Some resp, None), mkState w1 (request s),
     [EvDo (clientOf t) Fresh (probeRequest u)]) /\
  sends Fresh (snd (RoundTrip t s)) = 1 /\
  sends Caller (snd (RoundTrip t s)) = 0.
Proof.
  intros Hu Hdo Hst.
  assert (Hrt : RoundTrip t s =
                (Returned (Some resp, None), mkState w1 (request s),
                 [EvDo (clientOf t) Fresh (probeRequest u)])).
  { apply RoundTrip_no_retry; [|congruence].
    apply ntlmRoundTrip_not_unauthorized; assumption. }
  rewrite Hrt. repeat split; reflexivity.
Qed.

(** C7 — For a request whose URL [http.NewRequest] accepts, every
    attempt begins by sending a request made for it: a GET to that URL,
    without body, whose one header is Authorization with the one value
    ["NTLM "] followed by the base64 of the Negotiate message; this holds
    for the attempt of [RoundTrip] and for its retry.  Every send of
    [RoundTrip] goes over the one client made from the transport's
    [RoundTripper] and [Jar].  An error of the probe send ends the
    attempt at once with that error. *)
Theorem C7_probe_first_over_one_client
    (t : NtlmTransport) (s : State) (u : url_URL) :
  url_Parse (url_String (URL (request s))) = Some u ->
  let probe :=
    mkRequest "GET" u {[ "Authorization" := ["NTLM " +:+ EncBase64 Negotiate] ]}
      NoBody in
  let c := clientOf t in
  HeaderOps.Values (ReqHeader probe) "Authorization"
    = ["NTLM " +:+ EncBase64 Negotiate] /\
  (forall c0 s0, request s0 = request s ->
     exists o s' evs,
       ntlmRoundTrip t c0 s0 = (Returned o, s', EvDo c0 Fresh probe :: evs) /\
       sends Fresh evs = 0) /\
  (exists evs, snd (RoundTrip t s) = EvDo c Fresh probe :: evs) /\
  (forall resp s1 ev1,
     ntlmRoundTrip t c s = (Returned (resp, Some errEmptyNtlm), s1, ev1) ->
     exists evs2, snd (RoundTrip t s) = ev1 ++ EvDo c Fresh probe :: evs2) /\
  Transport c = RoundTripper t /\ ClientJar c = Jar t /\
  (forall e c', In e (snd (RoundTrip t s)) -> clientOfEvent e = Some c' -> c' = c) /\
  (forall c0 resp err w1,
     client_Do c0 probe (world s) = (DoErr resp err, w1) ->
     ntlmRoundTrip t c0 s =
       (Returned (None, Some (external err)), mkState w1 (request s),
        [EvDo c0 Fresh probe])).
Proof.
  intros Hu probe c. fold (probeRequest u) in probe. subst probe c.
  assert (Hstart : forall c0 s0, request s0 = request s ->
            exists o s' evs,
              ntlmRoundTrip t c0 s0 = (Returned o, s', EvDo c0 Fresh (probeRequest u) :: evs) /\
              sends Fresh evs = 0).
  { intros c0 s0 Hreq.
    pose proof (ntlmRoundTrip_Attempt t c0 s0) as Ha.
    destruct (ntlmRoundTrip t c0 s0) as [[[o|] s'] evs].
    - apply Attempt_probe_first in Ha as (u' & evs' & Hu' & -> & Hs).
      rewrite Hreq, Hu in Hu'. injection Hu' as <-.
      exists o, s', evs'. auto.
    - apply Attempt_panic in Ha as (Hn & _). rewrite Hreq in Hn. congruence. }
  split.
  { unfold HeaderOps.Values. simpl. rewrite canonical_Authorization.
    rewrite lookup_singleton_eq. reflexivity. }
  split; [exact Hstart|].
  destruct (RoundTrip_attempts t s) as (o1 & s1 & ev1 & Hfirst & Ha1 & Hrt).
  destruct (Hstart (clientOf t) s eq_refl) as (r1 & s1' & evs1 & Hrun1 & _).
  rewrite Hfirst in Hrun1. injection Hrun1 as -> -> ->.
  split.
  { destruct Hrt as [[-> _]|(resp & o2 & s2 & ev2 & _ & _ & _ & _ & ->)];
      simpl; eauto. }
  split.
  { intros resp s1 ev1 Hrun. rewrite Hfirst in Hrun. injection Hrun as -> <- <-.
    rewrite (RoundTrip_retry _ _ _ _ _ Hfirst).
    destruct Hrt as [[_ Hne]|(resp' & o2 & s2 & ev2 & _ & Hreq & _ & _ & _)];
      [destruct (Hne resp eq_refl)|].
    destruct (Hstart (clientOf t) s1' Hreq) as (r2 & s2' & evs2 & -> & _).
    simpl. eauto. }
  split; [reflexivity|]. split; [reflexivity|].
  split.
  { intros e c' Hin Hc.
    destruct Hrt as [[Hrt _]|(resp & o2 & s2 & ev2 & _ & _ & _ & Ha2 & Hrt)];
      rewrite Hrt in Hin; simpl in Hin.
    - eapply Attempt_clients; eauto.
    - change (In e ((EvDo (clientOf t) Fresh (probeRequest u) :: evs1) ++ ev2)) in Hin.
      apply in_app_or in Hin as [Hin|Hin];
        [exact (Attempt_clients _ _ _ _ _ _ Ha1 e c' Hin Hc)
        |exact (Attempt_clients _ _ _ _ _ _ Ha2 e c' Hin Hc)]. }
  intros c0 resp err w1 Hdo. eapply ntlmRoundTrip_probe_error; eassumption.
Qed.

(** C3 — After a 401 answer to the probe, the body of that answer is
    read to the end and then closed; an error of the read, or of the
    close, ends the attempt with that error.  When the selected payload
    is not empty, decodes, and the engine yields an Authenticate message
    for it, the caller's request is sent, after the read and the close,
    with its Authorization header set to the one value ["NTLM "] followed
    by the base64 of the message bytes, and what this send returns,
    response and error, is what the attempt returns. *)
Theorem C3_drain_then_authenticate
    (t : NtlmTransport) (c : Client) (s : State) (u : url_URL)
    (resp : Response) (w1 : World) :
  url_Parse (url_String (URL (request s))) = Some u ->
  client_Do c (probeRequest u) (world s) = (DoOk resp, w1) ->
  StatusCode resp = StatusUnauthorized ->
  match io_Copy_Discard (RespBody resp) w1 with
  | (Some err, w2) =>
      ntlmRoundTrip t c s =
        (Returned (None, Some (external err)), mkState w2 (request s),
         [EvDo c Fresh (probeRequest u); EvCopyDiscard (RespBody resp)])
  | (None, w2) =>
      match body_Close (RespBody resp) w2 with
      | (Some err, w3) =>
          ntlmRoundTrip t c s =
            (Returned (None, Some (external err)), mkState w3 (request s),
             [EvDo c Fresh (probeRequest u); EvCopyDiscard (RespBody resp);
              EvClose (RespBody resp)])
      | (None, w3) =>
          forall h challengeBytes authenticate w4,
            firstNTLM (HeaderOps.Values (RespHeader resp) "WWW-Authenticate")
              = Some h ->
            TrimSpace (sliceFrom 4 h) <> "" ->
            DecBase64 (TrimSpace (sliceFrom 4 h)) = inl challengeBytes ->
            engineAuthenticate t challengeBytes w3 = (inl authenticate, w4) ->
            let v := "NTLM " +:+ EncBase64 (message_Bytes authenticate) in
            let final :=
              mkRequest (Method (request s)) (URL (request s))
                (<["Authorization" := [v]]> (ReqHeader (request s)))
                (Body (request s)) in
            HeaderOps.Values (ReqHeader final) "Authorization" = [v] /\
            match client_Do c final w4 with
            | (d, w5) =>
                ntlmRoundTrip t c s =
                  (Returned (pairOfDo d), mkState w5 final,
                   [EvDo c Fresh (probeRequest u); EvCopyDiscard (RespBody resp);
                    EvClose (RespBody resp); EvDo c Caller final])
            end
      end
  end.
Proof.
  intros Hu Hdo Hst.
  destruct (io_Copy_Discard (RespBody resp) w1) as [[err|] w2] eqn:Hrd.
  { eapply ntlmRoundTrip_read_error; eassumption. }
  destruct (body_Close (RespBody resp) w2) as [[err|] w3] eqn:Hcl.
  { eapply ntlmRoundTrip_close_error; eassumption. }
  intros h challengeBytes authenticate w4 Hf Hne Hdec Hen v final.
  split; [apply Values_Authorization_set|].
  assert (Hch : challenged t c s u resp w3).
  { split; [exact Hu|]. exists w1, w2. auto. }
  rewrite (ntlmRoundTrip_challenged _ _ _ _ _ _ Hch).
  destruct (HeaderOps.Values (RespHeader resp) "WWW-Authenticate") as [|h0 hs] eqn:Hv;
    [discriminate Hf|].
  rewrite Hf. cbv zeta.
  apply String.eqb_neq in Hne. rewrite Hne, Hdec, Hen.
  fold v. fold (withAuthorization v (request s)).
  change (withAuthorization v (request s)) with final.
  destruct (client_Do c final w4) as [d w5]. reflexivity.
Qed.

(** C9 — When [RoundTrip] returns an error and the caller's request was
    not sent, that is, the error is one of the orchestration (probe
    send, read or close of the body, header missing or wrong, empty
    challenge, base64 decoding, session engine), the response returned
    with it is nil.  A response can come with an error only as the pair
    that the send of the caller's request returned. *)
Theorem C9_orchestration_error_without_response
    (t : NtlmTransport) (s : State) (resp : option Response) (err : error)
    (s' : State) (evs : list Event) :
  RoundTrip t s = (Returned (resp, Some err), s', evs) ->
  (sends Caller evs = 0 -> resp = None) /\
  (resp <> None ->
     exists evs0 d w,
       evs = evs0 ++ [EvDo (clientOf t) Caller (request s')] /\
       client_Do (clientOf t) (request s') w = (d, world s') /\
       pairOfDo d = (resp, Some err)).
Proof.
  intros Hrt.
  destruct (RoundTrip_attempts t s) as (o1 & s1 & ev1 & _ & Ha1 & Hcase).
  assert (Hlast : exists s0 ev0 evl,
             Attempt t (clientOf t) s0 (Returned (resp, Some err), s', evl) /\
             evs = ev0 ++ evl /\ sends Caller ev0 = 0).
  { destruct Hcase as [[Hrt1 _]|(r & o2 & s2 & ev2 & _ & _ & Hs1 & Ha2 & Hrt2)].
    - rewrite Hrt in Hrt1. injection Hrt1 as <- <- <-.
      exists s, [], evs. auto.
    - rewrite Hrt in Hrt2. injection Hrt2 as <- <- ->.
      exists s1, ev1, ev2. auto. }
  destruct Hlast as (s0 & ev0 & evl & Ha & -> & Hs0).
  split.
  - intros Hs. rewrite sends_app, Hs0 in Hs.
    eapply Attempt_error_nil; eauto.
  - intros Hresp.
    destruct (Attempt_request _ _ _ _ _ _ Ha)
      as [[_ Hs]|(u & presp & w & h & b & a & w' & d & _ & _ & _ & _ & _ & -> & Hdo & Hd)].
    + destruct Hresp. eapply Attempt_error_nil; eauto.
    + exists (ev0 ++ probeEvents (clientOf t) u presp), d, w'.
      rewrite <- app_assoc. split; [reflexivity|]. split; [exact Hdo|].
      congruence.
Qed.

Lemma withAuthorization_frame (v : string) (r : Request) :
  Method (withAuthorization v r) = Method r /\
  URL (withAuthorization v r) = URL r /\
  Body (withAuthorization v r) = Body r /\
  forall k, k <> "Authorization" ->
    ReqHeader (withAuthorization v r) !! k = ReqHeader r !! k.
Proof.
  repeat split. intros k Hk. simpl. apply lookup_insert_ne. congruence.
Qed.

(** C8 — [RoundTrip] changes nothing of the caller's request but its
    Authorization header: method, URL, body and every other header are
    at the end what they were.  The request is sent at most once.  When
    it is not sent it is not modified at all; when it is sent, a
    challenge was decoded and accepted by the engine in that attempt,
    the header was set to the Authenticate message, and the send is the
    last thing done.  An attempt that ends with the empty-challenge
    error leaves the request as it was, for the second attempt. *)
Theorem C8_only_the_Authorization_header_changes (t : NtlmTransport) (s : State) :
  match RoundTrip t s with
  | (o, s', evs) =>
      Method (request s') = Method (request s) /\
      URL (request s') = URL (request s) /\
      Body (request s') = Body (request s) /\
      (forall k, k <> "Authorization" ->
         ReqHeader (request s') !! k = ReqHeader (request s) !! k) /\
      sends Caller evs <= 1 /\
      (sends Caller evs = 0 -> request s' = request s) /\
      (sends Caller evs = 1 ->
         exists s0 u resp w h challengeBytes authenticate w' evs0,
           request s0 = request s /\
           challenged t (clientOf t) s0 u resp w /\
           firstNTLM (HeaderOps.Values (RespHeader resp) "WWW-Authenticate")
             = Some h /\
           DecBase64 (TrimSpace (sliceFrom 4 h)) = inl challengeBytes /\
           engineAuthenticate t challengeBytes w = (inl authenticate, w') /\
           request s' =
             withAuthorization
               ("NTLM " +:+ EncBase64 (message_Bytes authenticate)) (request s) /\
           evs = evs0 ++ [EvDo (clientOf t) Caller (request s')] /\
           sends Caller evs0 = 0)
  end /\
  (forall resp s1 ev1,
     ntlmRoundTrip t (clientOf t) s = (Returned (resp, Some errEmptyNtlm), s1, ev1) ->
     request s1 = request s /\ sends Caller ev1 = 0).
Proof.
  split.
  2:{ intros resp s1 ev1 Hrun.
      pose proof (ntlmRoundTrip_Attempt t (clientOf t) s) as Ha. rewrite Hrun in Ha.
      destruct (Attempt_empty _ _ _ _ _ _ Ha) as (u & presp & w & h & _ & _ & _ & _ & -> & ->).
      split; reflexivity. }
  destruct (RoundTrip_attempts t s) as (o1 & s1 & ev1 & _ & Ha1 & Hcase).
  assert (Hlast : exists s0 ev0 o s' evl,
             RoundTrip t s = (o, s', ev0 ++ evl) /\
             request s0 = request s /\ sends Caller ev0 = 0 /\
             Attempt t (clientOf t) s0 (o, s', evl)).
  { destruct Hcase as [[Hrt1 _]|(r & o2 & s2 & ev2 & _ & Hreq & Hs1 & Ha2 & Hrt2)].
    - exists s, [], o1, s1, ev1. auto.
    - exists s1, ev1, o2, s2, ev2. auto. }
  destruct Hlast as (s0 & ev0 & o & s' & evl & -> & Hreq & Hs0 & Ha).
  rewrite sends_app, Hs0. simpl.
  destruct (Attempt_request _ _ _ _ _ _ Ha)
    as [[Hsame Hs]|(u & presp & w & h & b & a & w' & d
                     & Hch & Hf & Hdec & Hen & Hset & -> & _ & _)].
  - rewrite Hsame, Hreq, Hs. repeat split; try lia; discriminate.
  - rewrite <- Hreq. rewrite Hset.
    destruct (withAuthorization_frame
                ("NTLM " +:+ EncBase64 (message_Bytes a)) (request s0))
      as (Hm & Hu & Hb & Hh).
    rewrite sends_app. destruct (sends_probeEvents (clientOf t) u presp) as [_ ->].
    split; [exact Hm|]. split; [exact Hu|]. split; [exact Hb|]. split; [exact Hh|].
    split; [unfold sends; simpl; lia|].
    split; [unfold sends; simpl; discriminate|].
    intros _. exists s0, u, presp, w, h, b, a, w', (ev0 ++ probeEvents (clientOf t) u presp).
    rewrite <- Hset, <- app_assoc, sends_app, Hs0.
    repeat (split; [first [assumption|reflexivity]|]). reflexivity.
Qed.

Lemma engineAuthenticate_error t challengeBytes w err w' :
  engineAuthenticate t challengeBytes w = (inr err, w') <->
  ntlm_CreateClientSession Version2 ConnectionlessMode w = (inr err, w') \/
  exists session w1,
    ntlm_CreateClientSession Version2 ConnectionlessMode w = (inl session, w1) /\
    let w2 := session_SetUserInfo session
                (User t) (Password t) (Domain t) (Workstation t) w1 in
    (ntlm_ParseChallengeMessage challengeBytes w2 = (inr err, w') \/
     exists challenge w3,
       ntlm_ParseChallengeMessage challengeBytes w2 = (inl challenge, w3) /\
       (session_ProcessChallengeMessage session challenge w3 = (Some err, w') \/
        exists w4,
          session_ProcessChallengeMessage session challenge w3 = (None, w4) /\
          session_GenerateAuthenticateMessage session w4 = (inr err, w'))).
Proof.
  unfold engineAuthenticate.
  destruct (ntlm_CreateClientSession Version2 ConnectionlessMode w)
    as [[session|e1] w1].
  2:{ split; [intros [= -> ->]; left; reflexivity|].
      intros [[= -> ->]|(session & w1' & Hc & _)]; [reflexivity|discriminate Hc]. }
  cbv zeta.
  destruct (ntlm_ParseChallengeMessage challengeBytes _) as [[challenge|e2] w3] eqn:Hp.
  2:{ split.
      - intros [= -> ->]. right. exists session, w1. split; [reflexivity|].
        left. exact Hp.
      - intros [Hc|(session' & w1' & [= <- <-] & Hr)]; [discriminate Hc|].
        rewrite Hp in Hr. destruct Hr as [[= -> ->]|(ch & w3' & Hr & _)];
          [reflexivity|discriminate Hr]. }
  destruct (session_ProcessChallengeMessage session challenge w3) as [[e3|] w4] eqn:Hq.
  { split.
    - intros [= -> ->]. right. exists session, w1. split; [reflexivity|].
      right. exists challenge, w3. split; [exact Hp|]. left. exact Hq.
    - intros [Hc|(session' & w1' & [= <- <-] & Hr)]; [discriminate Hc|].
      rewrite Hp in Hr. destruct Hr as [Hr|(ch & w3' & [= <- <-] & Hr)];
        [discriminate Hr|].
      rewrite Hq in Hr. destruct Hr as [[= -> ->]|(w4' & Hr & _)];
        [reflexivity|discriminate Hr]. }
  split.
  - intros Hg. right. exists session, w1. split; [reflexivity|].
    right. exists challenge, w3. split; [exact Hp|].
    right. exists w4. split; [exact Hq|exact Hg].
  - intros [Hc|(session' & w1' & [= <- <-] & Hr)]; [discriminate Hc|].
    rewrite Hp in Hr. destruct Hr as [Hr|(ch & w3' & [= <- <-] & Hr)];
      [discriminate Hr|].
    rewrite Hq in Hr. destruct Hr as [Hr|(w4' & [= <-] & Hr)];
      [discriminate Hr|exact Hr].
Qed.

(** C4 — An attempt ends with the empty-challenge error exactly when
    the probe was answered 401, its body read and closed, and the
    selected value, the first that starts with [NTLM], has nothing or
    only white space after these four bytes; then nothing else was done.
    A payload that is not empty and does not decode makes [RoundTrip]
    return the decoding error, which is not the empty-challenge error,
    after this one attempt; an error of the session engine, whichever of
    its four calls fails (create, parse, process, generate), is returned
    in the same way, after this one attempt. *)
Theorem C4_only_an_empty_payload_is_retried (t : NtlmTransport) (s : State) :
  let c := clientOf t in
  (forall resp s' evs,
     ntlmRoundTrip t c s = (Returned (resp, Some errEmptyNtlm), s', evs) <->
     exists u presp w h,
       challenged t c s u presp w /\
       firstNTLM (HeaderOps.Values (RespHeader presp) "WWW-Authenticate") = Some h /\
       Spec.WhitespaceOnly (list_ascii_of_string (sliceFrom 4 h)) /\
       resp = None /\ s' = mkState w (request s) /\ evs = probeEvents c u presp) /\
  (forall u presp w h,
     challenged t c s u presp w ->
     firstNTLM (HeaderOps.Values (RespHeader presp) "WWW-Authenticate") = Some h ->
     ~ Spec.WhitespaceOnly (list_ascii_of_string (sliceFrom 4 h)) ->
     match DecBase64 (TrimSpace (sliceFrom 4 h)) with
     | inr err =>
         err <> errEmptyNtlm /\
         RoundTrip t s =
           (Returned (None, Some err), mkState w (request s), probeEvents c u presp)
     | inl challengeBytes =>
         forall err w',
           engineAuthenticate t challengeBytes w = (inr err, w') ->
           external err <> errEmptyNtlm /\
           RoundTrip t s =
             (Returned (None, Some (external err)), mkState w' (request s),
              probeEvents c u presp)
     end) /\
  (forall challengeBytes w err w',
     engineAuthenticate t challengeBytes w = (inr err, w') <->
     ntlm_CreateClientSession Version2 ConnectionlessMode w = (inr err, w') \/
     exists session w1,
       ntlm_CreateClientSession Version2 ConnectionlessMode w = (inl session, w1) /\
       let w2 := session_SetUserInfo session
                   (User t) (Password t) (Domain t) (Workstation t) w1 in
       (ntlm_ParseChallengeMessage challengeBytes w2 = (inr err, w') \/
        exists challenge w3,
          ntlm_ParseChallengeMessage challengeBytes w2 = (inl challenge, w3) /\
          (session_ProcessChallengeMessage session challenge w3 = (Some err, w') \/
           exists w4,
             session_ProcessChallengeMessage session challenge w3 = (None, w4) /\
             session_GenerateAuthenticateMessage session w4 = (inr err, w')))).
Proof.
  intros c. subst c. split; [|split].
  - intros resp s' evs. split.
    + intros Hrun.
      pose proof (ntlmRoundTrip_Attempt t (clientOf t) s) as Ha. rewrite Hrun in Ha.
      destruct (Attempt_empty _ _ _ _ _ _ Ha)
        as (u & presp & w & h & Hch & Hf & He & -> & -> & ->).
      exists u, presp, w, h. apply TrimSpace_empty_iff in He.
      split; [exact Hch|]. split; [exact Hf|]. split; [exact He|]. auto.
    + intros (u & presp & w & h & Hch & Hf & Hws & -> & -> & ->).
      rewrite (ntlmRoundTrip_challenged _ _ _ _ _ _ Hch).
      destruct (HeaderOps.Values (RespHeader presp) "WWW-Authenticate") as [|h0 hs];
        [discriminate Hf|].
      rewrite Hf. cbv zeta.
      apply eqb_empty_TrimSpace in Hws. rewrite Hws. reflexivity.
  - intros u presp w h Hch Hf Hws.
    assert (Hne : String.eqb (TrimSpace (sliceFrom 4 h)) "" = false).
    { apply String.eqb_neq. intros He. apply Hws, TrimSpace_empty_iff, He. }
    pose proof (ntlmRoundTrip_challenged _ _ _ _ _ _ Hch) as Hrun.
    destruct (HeaderOps.Values (RespHeader presp) "WWW-Authenticate") as [|h0 hs];
      [discriminate Hf|].
    rewrite Hf in Hrun. cbv zeta in Hrun. rewrite Hne in Hrun.
    destruct (DecBase64 (TrimSpace (sliceFrom 4 h))) as [bytes|err] eqn:Hdec.
    + intros err w' Hen. rewrite Hen in Hrun.
      split; [discriminate|].
      apply RoundTrip_no_retry; [exact Hrun|congruence].
    + apply DecBase64_error in Hdec. subst err.
      split; [discriminate|].
      apply RoundTrip_no_retry; [exact Hrun|congruence].
  - intros. apply engineAuthenticate_error.
Qed.

(** C6 (amended) — After a 401 answer to the probe whose body was read
    and closed without error: when the answer has no WWW-Authenticate
    value at all the attempt fails with "WWW-Authenticate header
    missing"; when it has values but none starts with the four bytes
    [NTLM] the attempt fails with "wrong WWW-Authenticate header".  In
    both cases the response is nil, the caller's request is not sent and
    not modified, and [RoundTrip] returns this failure of its one
    attempt. *)
Theorem C6_header_missing_or_wrong
    (t : NtlmTransport) (c : Client) (s : State) (u : url_URL)
    (resp : Response) (w : World) :
  challenged t c s u resp w ->
  let authHeaders := HeaderOps.Values (RespHeader resp) "WWW-Authenticate" in
  let failure (msg : string) :=
    (Returned (None, Some (errorsNew msg)), mkState w (request s),
     probeEvents c u resp) in
  (authHeaders = [] ->
     ntlmRoundTrip t c s = failure "WWW-Authenticate header missing" /\
     (c = clientOf t -> RoundTrip t s = failure "WWW-Authenticate header missing")) /\
  (authHeaders <> [] ->
   Forall (fun h => HasPrefix h "NTLM" = false) authHeaders ->
     ntlmRoundTrip t c s = failure "wrong WWW-Authenticate header" /\
     (c = clientOf t -> RoundTrip t s = failure "wrong WWW-Authenticate header")) /\
  sends Caller (probeEvents c u resp) = 0.
Proof.
  intros Hch authHeaders failure. subst authHeaders failure.
  pose proof (ntlmRoundTrip_challenged _ _ _ _ _ _ Hch) as Hrun.
  split; [|split; [|reflexivity]].
  - intros Hv. rewrite Hv in Hrun. split; [exact Hrun|].
    intros ->. apply RoundTrip_no_retry; [exact Hrun|congruence].
  - intros Hv Hall. apply firstNTLM_None in Hall.
    destruct (HeaderOps.Values (RespHeader resp) "WWW-Authenticate") as [|h0 hs];
      [congruence|].
    rewrite Hall in Hrun. split; [exact Hrun|].
    intros ->. apply RoundTrip_no_retry; [exact Hrun|congruence].
Qed.

(** C2 (amended) — Challenge selection picks the first WWW-Authenticate
    value that starts with the four bytes [NTLM], compared byte for byte
    (so in this case only); what follows these bytes need not begin with
    white space.  The payload is that value without its first four
    bytes, with the white space around it trimmed.  A value that does not
    start with [NTLM] is never selected, and the values after the first
    match have no influence.  In a handshake it is this payload that is
    decoded and given to the session engine. *)
Theorem C2_first_value_with_prefix_NTLM :
  (forall h, HasPrefix h "NTLM" = true <-> exists rest, h = "NTLM" +:+ rest) /\
  (forall rest, sliceFrom 4 ("NTLM" +:+ rest) = rest) /\
  (forall pre h post,
     Forall (fun x => HasPrefix x "NTLM" = false) pre ->
     HasPrefix h "NTLM" = true ->
     scanAuthHeaders (pre ++ h :: post) false ""
       = (true, TrimSpace (sliceFrom 4 h))) /\
  (forall authHeaders,
     Forall (fun x => HasPrefix x "NTLM" = false) authHeaders ->
     scanAuthHeaders authHeaders false "" = (false, "")) /\
  (forall authHeaders payload,
     scanAuthHeaders authHeaders false "" = (true, payload) ->
     exists pre rest post,
       authHeaders = pre ++ ("NTLM" +:+ rest) :: post /\
       Forall (fun x => HasPrefix x "NTLM" = false) pre /\
       payload = TrimSpace rest) /\
  (forall t c s u resp w pre h post challengeBytes,
     challenged t c s u resp w ->
     HeaderOps.Values (RespHeader resp) "WWW-Authenticate" = pre ++ h :: post ->
     Forall (fun x => HasPrefix x "NTLM" = false) pre ->
     HasPrefix h "NTLM" = true ->
     TrimSpace (sliceFrom 4 h) <> "" ->
     DecBase64 (TrimSpace (sliceFrom 4 h)) = inl challengeBytes ->
     forall err w',
       engineAuthenticate t challengeBytes w = (inr err, w') ->
       ntlmRoundTrip t c s =
         (Returned (None, Some (external err)), mkState w' (request s),
          probeEvents c u resp)).
Proof.
  split; [|split; [|split; [|split; [|split]]]].
  - intros h. split; [apply HasPrefix_inv|].
    intros [rest ->]. apply HasPrefix_app.
  - intros rest. apply (sliceFrom_app "NTLM").
  - intros pre h post Hpre Hh.
    rewrite scanAuthHeaders_firstNTLM, firstNTLM_first by assumption. reflexivity.
  - intros hs Hall. apply firstNTLM_None in Hall.
    rewrite scanAuthHeaders_firstNTLM, Hall. reflexivity.
  - intros hs payload Hscan. rewrite scanAuthHeaders_firstNTLM in Hscan.
    destruct (firstNTLM hs) as [h|] eqn:Hf; [|discriminate Hscan].
    injection Hscan as <-.
    apply firstNTLM_Some in Hf as (pre & post & -> & Hpre & Hh).
    apply HasPrefix_inv in Hh as [rest ->].
    exists pre, rest, post. rewrite (sliceFrom_app "NTLM"). auto.
  - intros t c s u resp w pre h post bytes Hch Hv Hpre Hh Hne Hdec err w' Hen.
    assert (Hf : firstNTLM (HeaderOps.Values (RespHeader resp) "WWW-Authenticate")
                 = Some h).
    { rewrite Hv. apply firstNTLM_first; assumption. }
    rewrite (ntlmRoundTrip_challenged _ _ _ _ _ _ Hch).
    destruct (HeaderOps.Values (RespHeader resp) "WWW-Authenticate") as [|h0 hs];
      [discriminate Hf|].
    rewrite Hf. cbv zeta.
    apply String.eqb_neq in Hne. rewrite Hne, Hdec, Hen. reflexivity.
Qed.

(** C10 — Base64 is lossless on the Negotiate message: the probe has
    the one Authorization value ["NTLM "] followed by the encoding, and
    [DecBase64] of the text after the token and the space yields the
    bytes of the Negotiate message; indeed [DecBase64] after [EncBase64]
    yields any bytes back. *)
Theorem C10_Negotiate_base64_round_trip :
  (forall b : list byte, DecBase64 (EncBase64 b) = inl b) /\
  (forall u : url_URL,
     exists v,
       HeaderOps.Values (ReqHeader (probeRequest u)) "Authorization" = [v] /\
       HasPrefix v "NTLM " = true /\
       sliceFrom 5 v = EncBase64 Negotiate /\
       DecBase64 (sliceFrom 5 v) = inl Negotiate).
Proof.
  split; [apply DecBase64_EncBase64|].
  intros u. exists ("NTLM " +:+ EncBase64 Negotiate).
  split.
  { unfold HeaderOps.Values. simpl. rewrite canonical_Authorization.
    rewrite lookup_singleton_eq. reflexivity. }
  split; [apply HasPrefix_app|].
  rewrite (sliceFrom_app "NTLM "). split; [reflexivity|apply DecBase64_EncBase64].
Qed.

End Claims.

(** ** Further properties of the two functions *)

Section TrimSpaceFixedPoint.

Import GoStrings Spec.

Lemma stripAll_suffix pats n s : exists removed, s = removed ++ stripAll n pats s.
Proof.
  revert s; induction n as [|n IH]; intros s; simpl.
  - exists []. reflexivity.
  - destruct (stripOne pats s) as [r|] eqn:E; [|exists []; reflexivity].
    apply stripOne_Some in E as (p & _ & ->).
    destruct (IH r) as [removed Hr]. exists (p ++ removed).
    rewrite <- app_assoc. f_equal. exact Hr.
Qed.

Lemma stripAll_None pats n s : stripOne pats s = None -> stripAll n pats s = s.
Proof. intros E. destruct n; simpl; [reflexivity|]. rewrite E. reflexivity. Qed.

Lemma stripOne_None_prefix pats r y :
  stripOne pats (r ++ y) = None -> stripOne pats r = None.
Proof.
  intros E. destruct (stripOne pats r) as [x|] eqn:Er; [|reflexivity].
  apply stripOne_Some in Er as (p & Hin & ->).
  exfalso. apply (stripOne_None _ _ p (x ++ y) E Hin). apply eq_sym, app_assoc.
Qed.

Lemma trimRight_spec t :
  exists q removed,
    trimRight t = rev q /\ rev t = removed ++ q /\
    stripOne (map (@rev ascii) spaceEncodings) q = None.
Proof.
  exists (stripAll (length t) (map (@rev ascii) spaceEncodings) (rev t)).
  destruct (stripAll_suffix (map (@rev ascii) spaceEncodings) (length t) (rev t))
    as [removed Hrem].
  exists removed. split; [reflexivity|]. split; [exact Hrem|].
  apply stripAll_fixed; [apply spaceEncodings_rev_nonEmpty|rewrite length_rev; lia].
Qed.

Lemma trimmed_fixed s :
  let r := trimRight (trimLeft s) in trimLeft r = r /\ trimRight r = r.
Proof.
  cbv zeta.
  assert (Ht : stripOne spaceEncodings (trimLeft s) = None).
  { apply stripAll_fixed; [apply spaceEncodings_nonEmpty|lia]. }
  destruct (trimRight_spec (trimLeft s)) as (q & removed & -> & Hrem & Hq).
  split.
  - unfold trimLeft at 1. apply stripAll_None.
    apply (stripOne_None_prefix _ _ (rev removed)).
    rewrite <- rev_app_distr, <- Hrem, rev_involutive. exact Ht.
  - unfold trimRight. rewrite rev_involutive. f_equal. apply stripAll_None. exact Hq.
Qed.

(** Trimming what is trimmed changes nothing. *)
Lemma TrimSpace_idempotent (s : string) : TrimSpace (TrimSpace s) = TrimSpace s.
Proof.
  unfold TrimSpace. rewrite list_ascii_of_string_of_list_ascii.
  destruct (trimmed_fixed (list_ascii_of_string s)) as [Hl Hr].
  rewrite Hl, Hr. reflexivity.
Qed.

End TrimSpaceFixedPoint.

Section Further.
Context `{Outside}.

Import GoStrings.

Ltac attempt_cases Ha := inversion Ha; subst; clear Ha.

Lemma ntlmRoundTrip_empty t c s u resp w h :
  challenged t c s u resp w ->
  firstNTLM (HeaderOps.Values (RespHeader resp) "WWW-Authenticate") = Some h ->
  TrimSpace (sliceFrom 4 h) = "" ->
  ntlmRoundTrip t c s =
    (Returned (None, Some errEmptyNtlm), mkState w (request s), probeEvents c u resp).
Proof.
  intros Hch Hf He. rewrite (ntlmRoundTrip_challenged _ _ _ _ _ _ Hch).
  destruct (HeaderOps.Values (RespHeader resp) "WWW-Authenticate") as [|h0 hs];
    [discriminate Hf|].
  rewrite Hf. cbv zeta. rewrite He. reflexivity.
Qed.

(** The attempt whose result [RoundTrip] returns: the first, or the second
    after a first that ended with the empty-challenge error. *)
Lemma RoundTrip_last_attempt t s :
  exists s0 ev0 o s' evl,
    RoundTrip t s = (o, s', ev0 ++ evl) /\
    request s0 = request s /\
    ((ev0 = [] /\ s0 = s) \/
     (exists u resp w, ev0 = probeEvents (clientOf t) u resp /\
                       s0 = mkState w (request s))) /\
    Attempt t (clientOf t) s0 (o, s', evl).
Proof.
  destruct (RoundTrip_attempts t s) as (o1 & s1 & ev1 & _ & Ha1 & Hcase).
  destruct Hcase as [[Hrt _]|(r & o2 & s2 & ev2 & -> & Hreq & _ & Ha2 & Hrt)].
  - exists s, [], o1, s1, ev1. split; [exact Hrt|]. split; [reflexivity|].
    split; [left; split; reflexivity|exact Ha1].
  - destruct (Attempt_empty _ _ _ _ _ _ Ha1)
      as (u & presp & w & h & _ & _ & _ & _ & -> & ->).
    exists (mkState w (request s)), (probeEvents (clientOf t) u presp), o2, s2, ev2.
    split; [exact Hrt|]. split; [reflexivity|].
    split; [right; exists u, presp, w; split; reflexivity|exact Ha2].
Qed.

Lemma sends_Caller_prefix t s s0 ev0 :
  ((ev0 = [] /\ s0 = s) \/
   (exists u resp w, ev0 = probeEvents (clientOf t) u resp /\
                     s0 = mkState w (request s))) ->
  sends Caller ev0 = 0.
Proof. intros [[-> _]|(u & resp & w & -> & _)]; reflexivity. Qed.

(** X1 — [RoundTrip] panics exactly when [http.NewRequest] refuses the
    string of the request's URL: the error of [http.NewRequest] is
    dropped and the nil request is used.  Then nothing was sent and
    nothing was changed. *)
Theorem X1_panic_exactly_on_refused_URL (t : NtlmTransport) (s : State) :
  (url_Parse (url_String (URL (request s))) = None ->
   RoundTrip t s = (Panicked, s, [])) /\
  (forall s' evs,
     RoundTrip t s = (Panicked, s', evs) ->
     url_Parse (url_String (URL (request s))) = None /\ s' = s /\ evs = []).
Proof.
  split.
  - intros Hu. apply RoundTrip_no_retry; [|discriminate].
    apply ntlmRoundTrip_unresolvable. exact Hu.
  - intros s' evs Hrt.
    destruct (RoundTrip_attempts t s) as (o1 & s1 & ev1 & _ & Ha1 & Hcase).
    destruct Hcase as [[Hrt1 _]|(r & o2 & s2 & ev2 & -> & Hreq & _ & Ha2 & Hrt2)].
    + rewrite Hrt in Hrt1. injection Hrt1 as <- <- <-.
      apply Attempt_panic in Ha1. exact Ha1.
    + rewrite Hrt in Hrt2. injection Hrt2 as <- <- ->.
      apply Attempt_panic in Ha2 as (Hn & _ & _).
      apply Attempt_probe_first in Ha1 as (u & _ & Hu & _).
      rewrite Hreq in Hn. congruence.
Qed.

(** X2 — [RoundTrip] returns the empty-challenge error exactly when two
    attempts were made and in both the probe was answered 401, the body
    read and closed, and the first value that starts with [NTLM] had
    nothing or only white space after these bytes.  Then the response is
    nil, the caller's request was neither sent nor modified, and the calls
    made are those of the two probe exchanges. *)
Theorem X2_empty_challenge_error_means_two_empty_challenges
    (t : NtlmTransport) (s : State) (resp : option Response)
    (s' : State) (evs : list Event) :
  let c := clientOf t in
  RoundTrip t s = (Returned (resp, Some errEmptyNtlm), s', evs) <->
  exists u r1 w1 h1 r2 w2 h2,
    challenged t c s u r1 w1 /\
    firstNTLM (HeaderOps.Values (RespHeader r1) "WWW-Authenticate") = Some h1 /\
    Spec.WhitespaceOnly (list_ascii_of_string (sliceFrom 4 h1)) /\
    challenged t c (mkState w1 (request s)) u r2 w2 /\
    firstNTLM (HeaderOps.Values (RespHeader r2) "WWW-Authenticate") = Some h2 /\
    Spec.WhitespaceOnly (list_ascii_of_string (sliceFrom 4 h2)) /\
    resp = None /\ s' = mkState w2 (request s) /\
    evs = probeEvents c u r1 ++ probeEvents c u r2.
Proof.
  intros c. subst c. split.
  - intros Hrt.
    destruct (RoundTrip_attempts t s) as (o1 & s1 & ev1 & _ & Ha1 & Hcase).
    destruct Hcase as [[Hrt1 Hne]|(r & o2 & s2 & ev2 & -> & _ & _ & Ha2 & Hrt2)].
    + rewrite Hrt in Hrt1. injection Hrt1 as <- <- <-. destruct (Hne resp eq_refl).
    + rewrite Hrt in Hrt2. injection Hrt2 as <- <- ->.
      destruct (Attempt_empty _ _ _ _ _ _ Ha1)
        as (u & r1 & w1 & h1 & Hch1 & Hf1 & He1 & _ & -> & ->).
      destruct (Attempt_empty _ _ _ _ _ _ Ha2)
        as (u2 & r2 & w2 & h2 & Hch2 & Hf2 & He2 & -> & -> & ->).
      assert (u2 = u).
      { destruct Hch1 as [Hu1 _], Hch2 as [Hu2 _]. simpl in Hu2. congruence. }
      subst u2.
      apply TrimSpace_empty_iff in He1, He2.
      exists u, r1, w1, h1, r2, w2, h2.
      repeat (split; [first [assumption|reflexivity]|]). reflexivity.
  - intros (u & r1 & w1 & h1 & r2 & w2 & h2
            & Hch1 & Hf1 & He1 & Hch2 & Hf2 & He2 & -> & -> & ->).
    apply TrimSpace_empty_iff in He1, He2.
    rewrite (RoundTrip_retry _ _ None _ _
               (ntlmRoundTrip_empty _ _ _ _ _ _ _ Hch1 Hf1 He1)).
    rewrite (ntlmRoundTrip_empty _ _ _ _ _ _ _ Hch2 Hf2 He2). reflexivity.
Qed.

(** X3 — A response that [RoundTrip] returns with a nil error is the
    answer to a probe whose status is not 401, and then the caller's
    request was never sent, or it is the answer to the caller's request,
    sent as the last call.  The 401 answer to a probe is never returned. *)
Theorem X3_where_a_returned_response_comes_from
    (t : NtlmTransport) (s : State) (resp : Response)
    (s' : State) (evs : list Event) :
  let c := clientOf t in
  RoundTrip t s = (Returned (Some resp, None), s', evs) ->
  (sends Caller evs = 0 /\
   StatusCode resp <> StatusUnauthorized /\
   request s' = request s /\
   exists u w evs0,
     url_Parse (url_String (URL (request s))) = Some u /\
     client_Do c (probeRequest u) w = (DoOk resp, world s') /\
     evs = evs0 ++ [EvDo c Fresh (probeRequest u)]) \/
  (sends Caller evs = 1 /\
   exists w evs0,
     client_Do c (request s') w = (DoOk resp, world s') /\
     evs = evs0 ++ [EvDo c Caller (request s')]).
Proof.
  intros c Hrt. subst c.
  destruct (RoundTrip_last_attempt t s) as (s0 & ev0 & o & s1 & evl & Hrt' & Hreq & Hev0 & Ha).
  rewrite Hrt in Hrt'. injection Hrt' as <- <- ->.
  pose proof (sends_Caller_prefix _ _ _ _ Hev0) as Hs0.
  attempt_cases Ha.
  - left. rewrite sends_app, Hs0. split; [reflexivity|]. split; [assumption|].
    split; [exact Hreq|].
    match goal with
    | Hu : url_Parse _ = Some ?u, Hd : client_Do _ _ ?w = (DoOk _, _) |- _ =>
        exists u, w, ev0
    end.
    rewrite <- Hreq. auto.
  - right.
    match goal with Hp : pairOfDo ?d = _ |- _ =>
      destruct d as [resp'|resp' err']; [|discriminate Hp];
      injection Hp as -> end.
    rewrite !sends_app, Hs0.
    split; [reflexivity|].
    match goal with
    | Hc : challenged _ _ _ ?u ?presp _, Hd : client_Do _ _ ?w = (DoOk _, _) |- _ =>
        exists w, (ev0 ++ probeEvents (clientOf t) u presp)
    end.
    split; [assumption|]. rewrite <- app_assoc. reflexivity.
Qed.

(** X4 — After a 401 answer whose body was read and closed, the values
    are those stored under the canonical key [Www-Authenticate], whatever
    the spelling in the call.  The attempt ends with "WWW-Authenticate
    header missing" exactly when this key is absent from the header map or
    has no value, and with "wrong WWW-Authenticate header" exactly when it
    has values and none starts with [NTLM]. *)
Theorem X4_header_errors_by_the_canonical_key
    (t : NtlmTransport) (c : Client) (s : State) (u : url_URL)
    (resp : Response) (w : World) :
  challenged t c s u resp w ->
  (fst (fst (ntlmRoundTrip t c s))
     = Returned (None, Some (errorsNew "WWW-Authenticate header missing")) <->
   RespHeader resp !! "Www-Authenticate" = None \/
   RespHeader resp !! "Www-Authenticate" = Some []) /\
  (fst (fst (ntlmRoundTrip t c s))
     = Returned (None, Some (errorsNew "wrong WWW-Authenticate header")) <->
   exists values,
     RespHeader resp !! "Www-Authenticate" = Some values /\ values <> [] /\
     Forall (fun h => HasPrefix h "NTLM" = false) values).
Proof.
  intros Hch. rewrite (ntlmRoundTrip_challenged _ _ _ _ _ _ Hch).
  assert (Hother : forall (x : GoResult) (msg : string) (P : Prop),
            (forall m, x <> (None, Some (errorsNew m))) -> ~ P ->
            (Returned x = Returned (None, Some (errorsNew msg)) <-> P)).
  { intros x msg P Hx HP. split; [intros [= ->]; destruct (Hx msg eq_refl)|tauto]. }
  assert (Hvals : HeaderOps.Values (RespHeader resp) "WWW-Authenticate"
                  = default [] (RespHeader resp !! "Www-Authenticate")).
  { unfold HeaderOps.Values. rewrite canonical_WWW_Authenticate. reflexivity. }
  destruct (HeaderOps.Values (RespHeader resp) "WWW-Authenticate") as [|h0 hs].
  - assert (Hl : RespHeader resp !! "Www-Authenticate" = None \/
                 RespHeader resp !! "Www-Authenticate" = Some []).
    { destruct (RespHeader resp !! "Www-Authenticate") as [[|x l]|];
        [right; reflexivity|discriminate Hvals|left; reflexivity]. }
    simpl fst. split; [split; auto|]. split; [discriminate|].
    intros (values & Hv & Hne & _).
    destruct Hl as [Hl|Hl]; rewrite Hl in Hv; [discriminate Hv|].
    injection Hv as <-. destruct (Hne eq_refl).
  - assert (Hl : RespHeader resp !! "Www-Authenticate" = Some (h0 :: hs)).
    { destruct (RespHeader resp !! "Www-Authenticate") as [l|];
        [simpl in Hvals; congruence|discriminate Hvals]. }
    rewrite Hl. clear Hvals.
    assert (Hmissing : ~ (Some (h0 :: hs) = None \/ Some (h0 :: hs) = Some [])).
    { intros [?|?]; discriminate. }
    destruct (firstNTLM (h0 :: hs)) as [h|] eqn:Hf.
    + assert (Hwrong : ~ exists values,
                 Some (h0 :: hs) = Some values /\ values <> [] /\
                 Forall (fun h => HasPrefix h "NTLM" = false) values).
      { intros (values & [= <-] & _ & Hall).
        apply firstNTLM_None in Hall. congruence. }
      cbv zeta.
      destruct (String.eqb (TrimSpace (sliceFrom 4 h)) "");
        [simpl fst; split; (apply Hother; [intros m; simpl; discriminate|assumption])|].
      destruct (DecBase64 (TrimSpace (sliceFrom 4 h))) as [bytes|err] eqn:Hdec.
      2:{ apply DecBase64_error in Hdec. subst err.
          simpl fst; split; (apply Hother; [intros m; simpl; discriminate|assumption]). }
      destruct (engineAuthenticate t bytes w) as [[a|err] w'];
        [|simpl fst; split; (apply Hother; [intros m; simpl; discriminate|assumption])].
      destruct (client_Do c _ w') as [[r|r err] w''];
        simpl fst; split; (apply Hother; [intros m; simpl; discriminate|assumption]).
    + simpl fst. split; [split; [intros Hx; discriminate Hx|tauto]|].
      split; [|reflexivity]. intros _. exists (h0 :: hs).
      split; [reflexivity|]. split; [discriminate|].
      apply firstNTLM_None. exact Hf.
Qed.




(** X6 — The calls of [RoundTrip] come in order: a response body is read
    only right after the send of a probe, it is closed only right after
    it was read, and the caller's request is sent only right after a close
    and as the last call.  There are at most three sends, no more reads
    than probes and no more closes than reads. *)
Theorem X6_calls_in_order_and_bounded (t : NtlmTransport) (s : State) :
  let evs := snd (RoundTrip t s) in
  inOrder None evs /\
  sends Fresh evs + sends Caller evs <= 3 /\
  reads evs <= sends Fresh evs /\
  closes evs <= reads evs.
Proof.
  cbv zeta.
  destruct (RoundTrip_last_attempt t s)
    as (s0 & ev0 & o & s' & evl & -> & _ & Hev0 & Ha).
  simpl snd.
  destruct Hev0 as [[-> _]|(u & resp & w & -> & _)];
    attempt_cases Ha;
    unfold sends, reads, closes; simpl;
    repeat split; eauto; lia.
Qed.

(** X7 — The payload that the header scan yields is trimmed: trimming it
    again changes nothing, so what is handed to [DecBase64] neither begins
    nor ends with white space; and without a value that starts with
    [NTLM] the payload is empty. *)
Theorem X7_the_payload_is_trimmed
    (authHeaders : list string) (found : bool) (payload : string) :
  scanAuthHeaders authHeaders false "" = (found, payload) ->
  TrimSpace payload = payload /\ (found = false -> payload = "").
Proof.
  rewrite scanAuthHeaders_firstNTLM.
  destruct (firstNTLM authHeaders) as [h|]; intros [= <- <-].
  - split; [apply TrimSpace_idempotent|discriminate].
  - split; [vm_compute|]; reflexivity.
Qed.

(** X8 — [RoundTrip] never returns a nil response together with a nil
    error. *)
Theorem X8_never_nil_and_nil (t : NtlmTransport) (s : State) :
  match fst (fst (RoundTrip t s)) with
  | Returned (None, None) => False
  | _ => True
  end.
Proof.
  destruct (RoundTrip_last_attempt t s)
    as (s0 & ev0 & o & s' & evl & -> & _ & _ & Ha).
  simpl fst. attempt_cases Ha; try exact I.
  match goal with |- context [pairOfDo ?d] => destruct d as [r|[r|] e] end;
    exact I.
Qed.

(** X9 — The only response body that [RoundTrip] reads and does not close
    is one whose read failed: then the read is the last call and its
    error is what is returned, with a nil response.  Every other body
    that was read was closed. *)
Theorem X9_only_a_failed_read_is_left_unclosed
    (t : NtlmTransport) (s : State) (o : Outcome GoResult)
    (s' : State) (evs : list Event) :
  RoundTrip t s = (o, s', evs) ->
  reads evs = closes evs \/
  (reads evs = S (closes evs) /\
   exists evs0 b w err,
     evs = evs0 ++ [EvCopyDiscard b] /\
     io_Copy_Discard b w = (Some err, world s') /\
     o = Returned (None, Some (external err))).
Proof.
  intros Hrt.
  destruct (RoundTrip_last_attempt t s)
    as (s0 & ev0 & o' & s1 & evl & Hrt' & _ & Hev0 & Ha).
  rewrite Hrt in Hrt'. injection Hrt' as -> -> ->.
  destruct Hev0 as [[-> _]|(u & resp & w & -> & _)];
    attempt_cases Ha; try (left; reflexivity);
    right; (split; [reflexivity|]); simpl;
    match goal with
    | |- exists evs0 _ _ _, ?l = _ /\ _ => exists (removelast l)
    end;
    eexists _, _, _; (split; [reflexivity|]); (split; [eassumption|reflexivity]).
Qed.

End Further.

(** ** Runs in the scripted world *)

Import Demo.

Example TrimSpace_ex1 : GoStrings.TrimSpace "  TlRMTVNTUAAC	 " = "TlRMTVNTUAAC".
Proof. vm_compute. reflexivity. Qed.

Example TrimSpace_nbsp :
  GoStrings.TrimSpace
    (string_of_list_ascii (map ascii_of_nat [194; 160; 65; 226; 128; 168; 32])) = "A".
Proof. vm_compute. reflexivity. Qed.

Example HasPrefix_ex1 : GoStrings.HasPrefix "NTLM abc" "NTLM" = true.
Proof. reflexivity. Qed.

Example HasPrefix_ex2 : GoStrings.HasPrefix "ntlm abc" "NTLM" = false.
Proof. reflexivity. Qed.

Example HasPrefix_ex3 : GoStrings.HasPrefix "NTL" "NTLM" = false.
Proof. reflexivity. Qed.

Example EncBase64_foob :
  map EncBase64 (map list_byte_of_string [""; "f"; "fo"; "foo"; "foob"; "fooba"; "foobar"])
  = [""; "Zg=="; "Zm8="; "Zm9v"; "Zm9vYg=="; "Zm9vYmE="; "Zm9vYmFy"].
Proof. vm_compute. reflexivity. Qed.

Example decode_foob :
  map (fun s => Base64.decode (list_ascii_of_string s))
      [""; "Zg=="; "Zm8="; "Zm9v"; "Zm9vYg=="; "Zm9vYmE="; "Zm9vYmFy"; "Zm9"; "Zg==Zm9v"; "Z*9v"]
  = map Some (map list_byte_of_string [""; "f"; "fo"; "foo"; "foob"; "fooba"; "foobar"])
    ++ [None; None; None].
Proof. vm_compute. reflexivity. Qed.

(** The server answers 200 to the probe: one request in all. *)
Example run_200 :
  RoundTrip transport (start [Answer 200 []]) =
    (Returned (Some (mkResponse 200 ∅ 0), None),
     mkState (world0 []) (post "http://host/path"),
     [EvDo (clientOf transport) Fresh (probeRequest "http://host/path")]).
Proof. vm_compute. reflexivity. Qed.

(** Two values, [Negotiate abc] then an NTLM challenge: two requests. *)
Example run_two_values :
  let final := withAuthorization "NTLM QVVUSDphbGljZQ==" (post "http://host/path") in
  RoundTrip transport
    (start [Answer 401 ["Negotiate abc"; "NTLM TlRMTVNTUAAC"]; Answer 200 []]) =
    (Returned (Some (mkResponse 200 ∅ 0), None),
     mkState (setUser (world0 []) "alice") final,
     [EvDo (clientOf transport) Fresh (probeRequest "http://host/path");
      EvCopyDiscard 1; EvClose 1;
      EvDo (clientOf transport) Caller final]).
Proof. vm_compute. reflexivity. Qed.

(** An empty challenge twice: two probes, the error, no third attempt. *)
Example run_empty_twice :
  RoundTrip transport (start [Answer 401 ["NTLM"]; Answer 401 ["NTLM  "]; Answer 200 []]) =
    (Returned (None, Some errEmptyNtlm),
     mkState (world0 [Answer 200 []]) (post "http://host/path"),
     [EvDo (clientOf transport) Fresh (probeRequest "http://host/path");
      EvCopyDiscard 2; EvClose 2;
      EvDo (clientOf transport) Fresh (probeRequest "http://host/path");
      EvCopyDiscard 1; EvClose 1]).
Proof. vm_compute. reflexivity. Qed.

(** A URL that [http.NewRequest] refuses: the nil request is used. *)
Example run_unresolvable :
  RoundTrip transport (mkState (world0 [Answer 200 []]) (post "")) =
    (Panicked, mkState (world0 [Answer 200 []]) (post ""), []).
Proof. vm_compute. reflexivity. Qed.

(** A value whose scheme token is not [NTLM] but which starts with these
    four bytes is selected, before a value whose token is [NTLM]. *)
Lemma C2_counterexample :
  Spec.schemeToken "NTLMabcd" <> "NTLM" /\
  scanAuthHeaders ["NTLMabcd"; "NTLM TlRMTVNTUAAC"] false "" = (true, "abcd") /\
  Spec.selectChallenge ["NTLMabcd"; "NTLM TlRMTVNTUAAC"] = Some "TlRMTVNTUAAC".
Proof.
  split; [|split].
  - vm_compute. discriminate.
  - vm_compute. reflexivity.
  - vm_compute. reflexivity.
Qed.

(** A 401 answer without any WWW-Authenticate value whose body cannot be
    read ends with the error of the read; a 401 answer whose one value has
    the scheme token [NTLMabcd] ends with the caller's request sent and
    answered. *)
Lemma C6_counterexample :
  let unreadable :=
    mkState (mkWorld [Answer 401 []] true false false false false false "")
      (post "http://host/path") in
  let prefixed := start [Answer 401 ["NTLMabcd"]; Answer 200 []] in
  (exists resp w1,
      client_Do (clientOf transport) (probeRequest "http://host/path")
        (world unreadable) = (DoOk resp, w1) /\
      StatusCode resp = StatusUnauthorized /\
      HeaderOps.Values (RespHeader resp) "WWW-Authenticate" = []) /\
  fst (fst (RoundTrip transport unreadable))
    = Returned (None, Some (external "unexpected EOF")) /\
  (exists resp w1,
      client_Do (clientOf transport) (probeRequest "http://host/path")
        (world prefixed) = (DoOk resp, w1) /\
      StatusCode resp = StatusUnauthorized /\
      HeaderOps.Values (RespHeader resp) "WWW-Authenticate" = ["NTLMabcd"] /\
      Spec.schemeToken "NTLMabcd" <> "NTLM") /\
  fst (fst (RoundTrip transport prefixed))
    = Returned (Some (mkResponse 200 ∅ 0), None) /\
  sends Caller (snd (RoundTrip transport prefixed)) = 1.
Proof.
  cbv zeta. split; [|split; [|split; [|split]]].
  - eexists _, _. split; [reflexivity|]. split; reflexivity.
  - vm_compute. reflexivity.
  - eexists _, _. split; [reflexivity|]. split; [reflexivity|].
    split; [reflexivity|]. vm_compute. discriminate.
  - vm_compute. reflexivity.
  - vm_compute. reflexivity.
Qed.

Lemma C5_witness :
  (url_Parse (url_String (URL (request (start [Answer 200 []]))))
     = Some "http://host/path" /\
   client_Do (clientOf transport) (probeRequest "http://host/path")
     (world (start [Answer 200 []])) = (DoOk (mkResponse 200 ∅ 0), world0 []) /\
   StatusCode (mkResponse 200 ∅ 0) <> StatusUnauthorized) /\
  RoundTrip transport (start [Answer 200 []]) =
    (Returned (Some (mkResponse 200 ∅ 0), None),
     mkState (world0 []) (request (start [Answer 200 []])),
     [EvDo (clientOf transport) Fresh (probeRequest "http://host/path")]) /\
  sends Fresh (snd (RoundTrip transport (start [Answer 200 []]))) = 1 /\
  sends Caller (snd (RoundTrip transport (start [Answer 200 []]))) = 0.
Proof.
  split.
  - split; [reflexivity|]. split; [reflexivity|]. vm_compute. discriminate.
  - apply (@C5_other_status_is_returned types outside transport (start [Answer 200 []])
             "http://host/path" (@mkResponse types 200 ∅ 0) (world0 [])).
    + reflexivity.
    + reflexivity.
    + vm_compute. discriminate.
Defined.

Lemma C7_witness :
  url_Parse (url_String (URL (request (start [Answer 401 ["NTLM"]; Answer 200 []]))))
    = Some "http://host/path" /\
  exists evs2,
    snd (RoundTrip transport (start [Answer 401 ["NTLM"]; Answer 200 []])) =
      [EvDo (clientOf transport) Fresh (probeRequest "http://host/path");
       EvCopyDiscard 1; EvClose 1]
      ++ EvDo (clientOf transport) Fresh
           (mkRequest "GET" "http://host/path"
              {[ "Authorization" := ["NTLM " +:+ EncBase64 Negotiate] ]} NoBody)
         :: evs2.
Proof.
  split; [reflexivity|].
  refine (proj1 (proj2 (proj2 (proj2
    (@C7_probe_first_over_one_client types outside transport
       (start [Answer 401 ["NTLM"]; Answer 200 []]) "http://host/path" eq_refl))))
    None (@mkState types (world0 [Answer 200 []]) (post "http://host/path")) _ _).
  vm_compute. reflexivity.
Defined.

Lemma C3_witness :
  let s := start [Answer 401 ["Negotiate abc"; "NTLM Y2hhbGxlbmdl"]; Answer 200 []] in
  let c := clientOf transport in
  let resp := mkResponse 401 (headerOf ["Negotiate abc"; "NTLM Y2hhbGxlbmdl"]) 1 in
  let final := withAuthorization "NTLM QVVUSDphbGljZQ==" (post "http://host/path") in
  (url_Parse (url_String (URL (request s))) = Some "http://host/path" /\
   client_Do c (probeRequest "http://host/path") (world s)
     = (DoOk resp, world0 [Answer 200 []]) /\
   StatusCode resp = StatusUnauthorized) /\
  ntlmRoundTrip transport c s =
    (Returned (Some (mkResponse 200 ∅ 0), None),
     mkState (setUser (world0 []) "alice") final,
     [EvDo c Fresh (probeRequest "http://host/path");
      EvCopyDiscard 1; EvClose 1; EvDo c Caller final]).
Proof.
  cbv zeta. split.
  - split; [reflexivity|]. split; reflexivity.
  - refine (proj2
      (@C3_drain_then_authenticate types outside transport (clientOf transport)
         (start [Answer 401 ["Negotiate abc"; "NTLM Y2hhbGxlbmdl"]; Answer 200 []])
         "http://host/path"
         (@mkResponse types 401 (headerOf ["Negotiate abc"; "NTLM Y2hhbGxlbmdl"]) 1)
         (world0 [Answer 200 []]) eq_refl eq_refl eq_refl
         "NTLM Y2hhbGxlbmdl" (list_byte_of_string "challenge")
         (list_byte_of_string "AUTH:alice")
         (setUser (world0 [Answer 200 []]) "alice") _ _ _ _)).
    + vm_compute. reflexivity.
    + vm_compute. discriminate.
    + vm_compute. reflexivity.
    + vm_compute. reflexivity.
Defined.

Lemma C9_witness :
  RoundTrip transport (start [Answer 401 []]) =
    (Returned (None, Some (errorsNew "WWW-Authenticate header missing")),
     mkState (world0 []) (post "http://host/path"),
     probeEvents (clientOf transport) "http://host/path" (mkResponse 401 ∅ 0)) /\
  sends Caller
    (probeEvents (clientOf transport) "http://host/path" (mkResponse 401 ∅ 0)) = 0 /\
  (None : option Response) = None.
Proof.
  assert (Hrun : RoundTrip transport (start [Answer 401 []]) =
            (Returned (None, Some (errorsNew "WWW-Authenticate header missing")),
             mkState (world0 []) (post "http://host/path"),
             probeEvents (clientOf transport) "http://host/path" (mkResponse 401 ∅ 0))).
  { vm_compute. reflexivity. }
  split; [exact Hrun|]. split; [reflexivity|].
  exact (proj1 (@C9_orchestration_error_without_response types outside _ _ _ _ _ _ Hrun) eq_refl).
Defined.

Lemma C6_witness :
  challenged transport (clientOf transport) (start [Answer 401 []])
    "http://host/path" (mkResponse 401 ∅ 0) (world0 []) /\
  ntlmRoundTrip transport (clientOf transport) (start [Answer 401 []]) =
    (Returned (None, Some (errorsNew "WWW-Authenticate header missing")),
     mkState (world0 []) (post "http://host/path"),
     probeEvents (clientOf transport) "http://host/path" (mkResponse 401 ∅ 0)).
Proof.
  assert (Hch : challenged transport (clientOf transport) (start [Answer 401 []])
                  "http://host/path" (mkResponse 401 ∅ 0) (world0 [])).
  { split; [reflexivity|]. exists (world0 []), (world0 []).
    split; [reflexivity|]. split; [reflexivity|]. split; reflexivity. }
  split; [exact Hch|].
  exact (proj1 (proj1 (@C6_header_missing_or_wrong types outside _ _ _ _ _ _ Hch) eq_refl)).
Defined.

Lemma C2_witness :
  (Forall (fun x => GoStrings.HasPrefix x "NTLM" = false) ["Negotiate abc"; "ntlm xyz"] /\
   GoStrings.HasPrefix "NTLM  Y2hhbGxlbmdl " "NTLM" = true) /\
  scanAuthHeaders
    (["Negotiate abc"; "ntlm xyz"] ++ "NTLM  Y2hhbGxlbmdl " :: ["NTLM bGF0ZXI="])
    false ""
  = (true, GoStrings.TrimSpace (GoStrings.sliceFrom 4 "NTLM  Y2hhbGxlbmdl ")).
Proof.
  assert (Hpre : Forall (fun x => GoStrings.HasPrefix x "NTLM" = false)
                   ["Negotiate abc"; "ntlm xyz"]).
  { repeat constructor. }
  assert (Hh : GoStrings.HasPrefix "NTLM  Y2hhbGxlbmdl " "NTLM" = true).
  { reflexivity. }
  split; [split; assumption|].
  exact (proj1 (proj2 (proj2 C2_first_value_with_prefix_NTLM))
           ["Negotiate abc"; "ntlm xyz"] "NTLM  Y2hhbGxlbmdl " ["NTLM bGF0ZXI="]
           Hpre Hh).
Defined.

Lemma C4_witness :
  let c := clientOf transport in
  let empty := start [Answer 401 ["Basic realm"; "NTLM  "]; Answer 200 []] in
  let garbled := start [Answer 401 ["NTLM ***"]; Answer 200 []] in
  ntlmRoundTrip transport c empty =
    (Returned (None, Some errEmptyNtlm),
     mkState (world0 [Answer 200 []]) (request empty),
     probeEvents c "http://host/path"
       (mkResponse 401 (headerOf ["Basic realm"; "NTLM  "]) 1)) /\
  RoundTrip transport garbled =
    (Returned (None, Some CorruptInputError),
     mkState (world0 [Answer 200 []]) (request garbled),
     probeEvents c "http://host/path" (mkResponse 401 (headerOf ["NTLM ***"]) 1)).
Proof.
  cbv zeta. split.
  - apply (proj1 (@C4_only_an_empty_payload_is_retried types outside transport
                    (start [Answer 401 ["Basic realm"; "NTLM  "]; Answer 200 []]))).
    exists "http://host/path",
      (@mkResponse types 401 (headerOf ["Basic realm"; "NTLM  "]) 1),
      (world0 [Answer 200 []]), "NTLM  ".
    split.
    { split; [reflexivity|].
      exists (world0 [Answer 200 []]), (world0 [Answer 200 []]).
      split; [reflexivity|]. split; [reflexivity|]. split; reflexivity. }
    split; [vm_compute; reflexivity|].
    split; [|split; [reflexivity|split; reflexivity]].
    apply (Spec.ws_rune 32%N [" "%char]); [vm_compute; tauto|].
    apply (Spec.ws_rune 32%N []); [vm_compute; tauto|constructor].
  - assert (Hch : challenged transport (clientOf transport)
                    (start [Answer 401 ["NTLM ***"]; Answer 200 []])
                    "http://host/path"
                    (@mkResponse types 401 (headerOf ["NTLM ***"]) 1)
                    (world0 [Answer 200 []])).
    { split; [reflexivity|].
      exists (world0 [Answer 200 []]), (world0 [Answer 200 []]).
      split; [reflexivity|]. split; [reflexivity|]. split; reflexivity. }
    assert (Hf : firstNTLM
                   (HeaderOps.Values
                      (RespHeader (@mkResponse types 401 (headerOf ["NTLM ***"]) 1))
                      "WWW-Authenticate") = Some "NTLM ***").
    { vm_compute. reflexivity. }
    assert (Hws : ~ Spec.WhitespaceOnly
                      (list_ascii_of_string (GoStrings.sliceFrom 4 "NTLM ***"))).
    { intros Hw. apply TrimSpace_empty_iff in Hw. vm_compute in Hw. discriminate Hw. }
    exact (proj2 (proj1 (proj2
             (@C4_only_an_empty_payload_is_retried types outside transport
                (start [Answer 401 ["NTLM ***"]; Answer 200 []])))
             _ _ _ _ Hch Hf Hws)).
Defined.

Lemma X1_witness :
  url_Parse (url_String (URL (request (mkState (world0 [Answer 200 []]) (post "")))))
    = None /\
  RoundTrip transport (mkState (world0 [Answer 200 []]) (post "")) =
    (Panicked, mkState (world0 [Answer 200 []]) (post ""), []).
Proof.
  split; [reflexivity|].
  exact (proj1 (@X1_panic_exactly_on_refused_URL types outside transport
                  (mkState (world0 [Answer 200 []]) (post ""))) eq_refl).
Defined.

Lemma X3_witness :
  let run := RoundTrip transport (start [Answer 401 [] ; Answer 200 []]) in
  let run' := RoundTrip transport (start [Answer 200 []]) in
  fst (fst run) = Returned (None, Some (errorsNew "WWW-Authenticate header missing")) /\
  run' = (Returned (Some (mkResponse 200 ∅ 0), None), snd (fst run'), snd run') /\
  (StatusCode (mkResponse 200 ∅ 0) <> StatusUnauthorized \/ sends Caller (snd run') = 1).
Proof.
  cbv zeta. split; [vm_compute; reflexivity|].
  assert (Hrun : RoundTrip transport (start [Answer 200 []]) =
            (Returned (Some (@mkResponse types 200 ∅ 0), None),
             snd (fst (RoundTrip transport (start [Answer 200 []]))),
             snd (RoundTrip transport (start [Answer 200 []])))).
  { vm_compute. reflexivity. }
  split; [exact Hrun|].
  destruct (@X3_where_a_returned_response_comes_from types outside _ _ _ _ _ Hrun)
    as [(_ & Hst & _)|(Hs & _)]; [left; exact Hst|right; exact Hs].
Defined.

Lemma X4_witness :
  challenged transport (clientOf transport) (start [Answer 401 []])
    "http://host/path" (mkResponse 401 ∅ 0) (world0 []) /\
  fst (fst (ntlmRoundTrip transport (clientOf transport) (start [Answer 401 []])))
    = Returned (None, Some (errorsNew "WWW-Authenticate header missing")).
Proof.
  assert (Hch : challenged transport (clientOf transport) (start [Answer 401 []])
                  "http://host/path" (@mkResponse types 401 ∅ 0) (world0 [])).
  { split; [reflexivity|]. exists (world0 []), (world0 []).
    split; [reflexivity|]. split; [reflexivity|]. split; reflexivity. }
  split; [exact Hch|].
  apply (proj2 (proj1 (@X4_header_errors_by_the_canonical_key types outside
                         _ _ _ _ _ _ Hch))).
  left. reflexivity.
Defined.


Lemma X7_witness :
  scanAuthHeaders ["Basic realm"; "NTLM  Y2hhbGxlbmdl	 "; "NTLM bGF0ZXI="] false ""
    = (true, "Y2hhbGxlbmdl") /\
  GoStrings.TrimSpace "Y2hhbGxlbmdl" = "Y2hhbGxlbmdl".
Proof.
  assert (Hscan : scanAuthHeaders
                    ["Basic realm"; "NTLM  Y2hhbGxlbmdl	 "; "NTLM bGF0ZXI="] false ""
                  = (true, "Y2hhbGxlbmdl")).
  { vm_compute. reflexivity. }
  split; [exact Hscan|].
  exact (proj1 (X7_the_payload_is_trimmed _ _ _ Hscan)).
Defined.

Lemma X9_witness :
  let unreadable :=
    mkState (mkWorld [Answer 401 ["NTLM Y2hhbGxlbmdl"]] true false false false false false "")
      (post "http://host/path") in
  let run := RoundTrip transport unreadable in
  reads (snd run) = 1 /\ closes (snd run) = 0 /\
  fst (fst run) = Returned (None, Some (external "unexpected EOF")).
Proof.
  cbv zeta.
  set (unreadable :=
         @mkState types
           (mkWorld [Answer 401 ["NTLM Y2hhbGxlbmdl"]] true false false false false false "")
           (post "http://host/path")).
  assert (Hr : reads (snd (RoundTrip transport unreadable)) = 1) by (vm_compute; reflexivity).
  assert (Hc : closes (snd (RoundTrip transport unreadable)) = 0) by (vm_compute; reflexivity).
  split; [exact Hr|]. split; [exact Hc|].
  destruct (@X9_only_a_failed_read_is_left_unclosed types outside transport unreadable
              (fst (fst (RoundTrip transport unreadable)))
              (snd (fst (RoundTrip transport unreadable)))
              (snd (RoundTrip transport unreadable)))
    as [Heq|(_ & evs0 & b & w & err & _ & _ & _)].
  - vm_compute. reflexivity.
  - rewrite Hr, Hc in Heq. discriminate Heq.
  - vm_compute. reflexivity.
Defined.
